(** * rt-dashboard-template: the sampler, the metrics store and the query API

    A shallow embedding of [backend/continuous_data.py], [backend/db.py],
    [backend/models.py] and [backend/main.py].

    - Python floats are IEEE binary64 values: [spec_float] with the
      operations of [SpecFloat] at [prec = 53], [emax = 1024].
    - The module-level dict [LAST_VALUES] is a [gmap string (gmap string float)];
      a missing key raises [KeyError] as in Python.
    - The SQLite file is the list of rows of table [metrics] in rowid order
      together with the AUTOINCREMENT counter, of a database on which
      [init_db] has run and which can be opened; a connection works on a copy
      that replaces the file's contents on [commit] and is dropped on [close].
      A connection whose INSERT was rejected keeps the write lock of the file
      after [close] for as long as its cursor is referenced.
    - The HTTP layer is FastAPI's router for GET requests: the routes FastAPI
      adds by itself, the two routes of [main.py], the redirect for a
      trailing slash and the JSON encoding of the handler's result.
    - [time.time()] and [random.choice] read two external sources: the
      sequence of clock values and the sequence of raw random numbers, each
      consumed one value per call.
    - Code runs in a state-and-exception monad over [World]. *)

From Stdlib Require Import ZArith Ascii String List Floats Lia.
From stdpp Require Import base option list gmap strings sorting pretty.

Local Set Warnings "-inexact-float".

Local Open Scope string_scope.
Local Open Scope list_scope.
Local Open Scope Z_scope.

(** ** Floats *)

Definition float : Type := spec_float.

(** A Python float literal is the binary64 value nearest to the decimal. *)
Definition f_0_1 : float := Eval vm_compute in Prim2SF 0.1%float.
Definition f_0_05 : float := Eval vm_compute in Prim2SF 0.05%float.
Definition f_neg_0_1 : float := Eval vm_compute in Prim2SF (-0.1)%float.
Definition f_neg_0_05 : float := Eval vm_compute in Prim2SF (-0.05)%float.
(** The int [0] of the choice list, converted by [float + int]. *)
Definition f_0 : float := S754_zero false.

Definition fadd (x y : float) : float := SFadd prec emax x y.
Definition is_nan (x : float) : bool :=
  match x with
  | S754_nan => true
  | _ => false
  end.
(** [math.isfinite(x)] *)
Definition is_finite (x : float) : bool :=
  match x with
  | S754_zero _ | S754_finite _ _ _ => true
  | _ => false
  end.
(** [x < y] on floats; [x > y] is [flt y x]. Any comparison with NaN is False. *)
Definition flt (x y : float) : bool := SFltb x y.
Definition fle (x y : float) : bool := SFleb x y.

(** Builtin [min(a, b)]: the first argument is kept unless a later one is
    strictly lower ([item < current]). *)
Definition py_min (a b : float) : float := if flt b a then b else a.
(** Builtin [max(a, b)]: replaced only when [item > current]. *)
Definition py_max (a b : float) : float := if flt a b then b else a.

(** ** continuous_data.py: constants *)

Definition SENSORS : list string := ["THS No. 1"; "THS No. 2"; "THS No. 3"].

Definition TEMP_MIN : float := Eval vm_compute in Prim2SF 16.0%float.
Definition TEMP_MAX : float := Eval vm_compute in Prim2SF 26.0%float.
Definition HUMIDITY_MIN : float := Eval vm_compute in Prim2SF 40.0%float.
Definition HUMIDITY_MAX : float := Eval vm_compute in Prim2SF 70.0%float.

Definition sensor_values (temp humidity : float) : gmap string float :=
  <["temp" := temp]> (<["humidity" := humidity]> ∅).

Definition f_21_0 : float := Eval vm_compute in Prim2SF 21.0%float.
Definition f_55_0 : float := Eval vm_compute in Prim2SF 55.0%float.
Definition f_22_0 : float := Eval vm_compute in Prim2SF 22.0%float.
Definition f_58_0 : float := Eval vm_compute in Prim2SF 58.0%float.
Definition f_20_5 : float := Eval vm_compute in Prim2SF 20.5%float.
Definition f_52_0 : float := Eval vm_compute in Prim2SF 52.0%float.

(** The value of [LAST_VALUES] when the module is loaded. *)
Definition LAST_VALUES_initial : gmap string (gmap string float) :=
  <["THS No. 1" := sensor_values f_21_0 f_55_0]>
  (<["THS No. 2" := sensor_values f_22_0 f_58_0]>
  (<["THS No. 3" := sensor_values f_20_5 f_52_0]> ∅)).

Definition CHANGES : list float := [f_neg_0_1; f_neg_0_05; f_0; f_0_05; f_0_1].

(** ** models.py: table [metrics] *)

Record Row := mkRow {
  id : Z;
  timestamp : Z;
  sensor_id : string;
  temperature : float;
  humidity : float
}.

(** Contents of [metrics.db]: the rows of [metrics] in rowid order and the
    [sqlite_sequence] entry kept for [AUTOINCREMENT]. The table exists, that
    is, [init_db] has run on the file, and the integers are those SQLite can
    store, within 64 bits. *)
Record Db := mkDb {
  metrics : list Row;
  sqlite_sequence : Z
}.

Definition empty_db : Db := mkDb [] 0.

(** ** Exceptions and the program state *)

Inductive exn :=
  | KeyError (key : string)
  | IndexError (msg : string)
  | IntegrityError (msg : string)
  | OperationalError (msg : string)
  | ValueError (msg : string).

(** [str(e)]: a [KeyError] shows the repr of its key. *)
Definition str (e : exn) : string :=
  match e with
  | KeyError key => "'" +:+ key +:+ "'"
  | IndexError msg => msg
  | IntegrityError msg => msg
  | OperationalError msg => msg
  | ValueError msg => msg
  end.

(** The character written [\n] in a Python string. *)
Definition newline : string := String "010"%char EmptyString.

(** Lines written by [print]. The [%H:%M:%S] prefix of the insert line is
    left out. *)
Inductive line :=
  | Text (s : string)
  | Inserted_metrics
  | Error_inserting (e : string)
  | Cleaned_up (deleted : Z)
  | Error_cleaning (e : string).

Record World := mkWorld {
  LAST_VALUES : gmap string (gmap string float);
  database : Db;
  stdout : list line;
  random_calls : nat;
  time_calls : nat
}.

Definition set_LAST_VALUES (v : gmap string (gmap string float)) (w : World) : World :=
  mkWorld v (database w) (stdout w) (random_calls w) (time_calls w).
Definition set_database (d : Db) (w : World) : World :=
  mkWorld (LAST_VALUES w) d (stdout w) (random_calls w) (time_calls w).
Definition add_stdout (l : line) (w : World) : World :=
  mkWorld (LAST_VALUES w) (database w) (stdout w ++ [l]) (random_calls w) (time_calls w).
Definition tick_random (w : World) : World :=
  mkWorld (LAST_VALUES w) (database w) (stdout w) (S (random_calls w)) (time_calls w).
Definition tick_time (w : World) : World :=
  mkWorld (LAST_VALUES w) (database w) (stdout w) (random_calls w) (S (time_calls w)).

Inductive result (A : Type) :=
  | Ok (a : A)
  | Raise (e : exn).
Arguments Ok {A} a.
Arguments Raise {A} e.

Definition M (A : Type) : Type := World → result A * World.

Definition ret {A} (a : A) : M A := λ w, (Ok a, w).
Definition bind {A B} (c : M A) (k : A → M B) : M B :=
  λ w, match c w with
       | (Ok a, w') => k a w'
       | (Raise e, w') => (Raise e, w')
       end.
Definition raise {A} (e : exn) : M A := λ w, (Raise e, w).

Notation "x <- c ;; k" := (bind c (λ x, k))
  (at level 100, c at next level, right associativity).
Notation "c ;;; k" := (bind c (λ _, k))
  (at level 100, right associativity).

(** [try: body except Exception as e: handler e] *)
Definition try_except {A} (body : M A) (handler : exn → M A) : M A :=
  λ w, match body w with
       | (Ok a, w') => (Ok a, w')
       | (Raise e, w') => handler e w'
       end.

Definition get_LAST_VALUES : M (gmap string (gmap string float)) :=
  λ w, (Ok (LAST_VALUES w), w).
Definition print (l : line) : M unit := λ w, (Ok tt, add_stdout l w).

(** [d[key]] *)
Definition getitem {V} (d : gmap string V) (key : string) : M V :=
  match d !! key with
  | Some v => ret v
  | None => raise (KeyError key)
  end.

(** [needle in hay] on strings. *)
Fixpoint contains (needle hay : string) : bool :=
  String.prefix needle hay ||
  match hay with
  | EmptyString => false
  | String _ rest => contains needle rest
  end.

(** ** The metrics table: statements run on a connection *)

Definition UNIQUE_FAILED : string :=
  "UNIQUE constraint failed: metrics.timestamp, metrics.sensor_id".

(** [UNIQUE(timestamp, sensor_id)]: is the pair already in the table? *)
Definition key_taken (ts : Z) (sid : string) (rows : list Row) : bool :=
  existsb (λ r, (timestamp r =? ts) && String.eqb (sensor_id r) sid) rows.

(** [INTEGER PRIMARY KEY AUTOINCREMENT]: one more than the largest rowid
    ever used. *)
Definition next_rowid (conn : Db) : Z :=
  Z.max (sqlite_sequence conn) (foldr Z.max 0 (id <$> metrics conn)) + 1.

(** [REAL NOT NULL]: a float that is not a number is bound as NULL. *)
Definition NOT_NULL_FAILED (column : string) : string :=
  "NOT NULL constraint failed: metrics." +:+ column.

(** [INSERT INTO metrics (timestamp, sensor_id, temperature, humidity)
    VALUES (?, ?, ?, ?)] inside the connection's open transaction. The
    NOT NULL constraints are checked column by column before the UNIQUE
    constraint; a rejected row uses up no rowid. *)
Definition execute_insert (conn : Db) (ts : Z) (sid : string)
    (temp hum : float) : M Db :=
  if is_nan temp
  then raise (IntegrityError (NOT_NULL_FAILED "temperature"))
  else if is_nan hum
  then raise (IntegrityError (NOT_NULL_FAILED "humidity"))
  else if key_taken ts sid (metrics conn)
  then raise (IntegrityError UNIQUE_FAILED)
  else
    let rowid := next_rowid conn in
    ret (mkDb (metrics conn ++ [mkRow rowid ts sid temp hum]) rowid).

(** SQLite lets one connection write at a time: a statement that writes
    while another connection holds the write lock of the file waits for the
    busy timeout, five seconds, and then fails. *)
Definition DATABASE_LOCKED : string := "database is locked".

(** [cursor.execute] of a writing statement whose effect is [statement], when
    [write_locked] tells whether another connection holds the write lock. *)
Definition cursor_execute {A} (write_locked : bool) (statement : A) : M A :=
  if write_locked then raise (OperationalError DATABASE_LOCKED) else ret statement.

(** What a connection keeps after [conn.close()]. [sqlite3] gives up the
    file of a connection only when the last of its statements is finalized,
    and a statement that failed in [cursor.execute] stays with its cursor. So
    after an INSERT was rejected the closed connection keeps its open
    transaction, and with it the write lock, for as long as the cursor is
    referenced. An exception of another origin leaves no statement behind. *)
Definition keeps_write_lock (e : exn) : bool :=
  match e with
  | IntegrityError _ => true
  | _ => false
  end.

(** [DELETE FROM metrics WHERE timestamp < ?]; the second component is
    [cursor.rowcount]. *)
Definition execute_delete (conn : Db) (cutoff : Z) : Db * Z :=
  (mkDb (filter (λ r, ¬ timestamp r < cutoff) (metrics conn)) (sqlite_sequence conn),
   Z.of_nat (length (filter (λ r, timestamp r < cutoff) (metrics conn)))).

(** [ORDER BY sensor_id, timestamp ASC]: TEXT is compared bytewise. *)
Definition order_by_sensor_id_timestamp (r1 r2 : Row) : bool :=
  match String.compare (sensor_id r1) (sensor_id r2) with
  | Lt => true
  | Eq => timestamp r1 <=? timestamp r2
  | Gt => false
  end.

(** [SELECT ... FROM metrics WHERE timestamp > ? ORDER BY sensor_id, timestamp ASC] *)
Definition execute_select (conn : Db) (cutoff : Z) : list Row :=
  merge_sort (λ r1 r2, Is_true (order_by_sensor_id_timestamp r1 r2))
    (filter (λ r, cutoff < timestamp r) (metrics conn)).

(** Python values that reach the HTTP layer. A [dict] keeps its keys in
    insertion order. *)
#[local] Unset Elimination Schemes.
Inductive value :=
  | Int (z : Z)
  | Float (f : float)
  | Str (s : string)
  | List (l : list value)
  | Dict (d : list (string * value)).
#[local] Set Elimination Schemes.

(** [dict(row)] for a row of the [SELECT] above. *)
Definition dict_of_row (r : Row) : value :=
  Dict [("timestamp", Int (timestamp r)); ("sensor_id", Str (sensor_id r));
        ("temperature", Float (temperature r)); ("humidity", Float (humidity r))].

(** [json.dumps(content, allow_nan=False)] accepts the value: no float in it
    is infinite or not a number. *)
Fixpoint json_compliant (v : value) : bool :=
  match v with
  | Int _ => true
  | Float f => is_finite f
  | Str _ => true
  | List l => forallb json_compliant l
  | Dict d => forallb (λ item, json_compliant (snd item)) d
  end.

(** [get_db()] opens a connection, which starts from the committed file.
    The file is taken to exist and to be readable: [sqlite3.connect] does
    not fail. *)
Definition get_db : M Db := λ w, (Ok (database w), w).
(** [conn.commit()] *)
Definition commit (conn : Db) : M unit := λ w, (Ok tt, set_database conn w).
(** [conn.close()]: what was not committed never reaches the file, the
    connection's copy is dropped. Whether the write lock goes with it depends
    on the cursor, see [keeps_write_lock]. *)
Definition close (conn : Db) : M unit := ret tt.

(** [try: body finally: final] *)
Definition try_finally {A} (body : M A) (final : M unit) : M A :=
  λ w, match body w with
       | (r, w') =>
           match final w' with
           | (Ok _, w'') => (r, w'')
           | (Raise e, w'') => (Raise e, w'')
           end
       end.

Section Program.

(** The value returned by the [n]-th call of [time.time()], truncated by
    [int], and the raw number behind the [n]-th call of [random.choice]. *)
Variable wall_clock : nat → Z.
Variable random_source : nat → nat.

(** [int(time.time())] *)
Definition int_time_time : M Z :=
  λ w, (Ok (wall_clock (time_calls w)), tick_time w).

(** [random.choice(seq)]: [seq[randbelow(len(seq))]]. *)
Definition random_choice {A} (seq : list A) : M A :=
  λ w, match seq !! (random_source (random_calls w) `mod` length seq)%nat with
       | Some x => (Ok x, tick_random w)
       | None => (Raise (IndexError "Cannot choose from an empty sequence"), w)
       end.

(** ** continuous_data.py *)

Definition generate_random_walk_value (sensor_id metric_type : string) : M float :=
  last_values <- get_LAST_VALUES;;
  of_sensor <- getitem last_values sensor_id;;
  last_value <- getitem of_sensor metric_type;;
  change <- random_choice CHANGES;;
  let new_value := fadd last_value change in
  let new_value :=
    if String.eqb metric_type "temp"
    then py_max TEMP_MIN (py_min TEMP_MAX new_value)
    else py_max HUMIDITY_MIN (py_min HUMIDITY_MAX new_value) in
  (λ w, (Ok tt, set_LAST_VALUES
                  (<[sensor_id := <[metric_type := new_value]> of_sensor]> last_values) w));;;
  ret new_value.

(** The body of [clean_old_data], when [write_locked] tells whether a
    connection of the calling frame still holds the write lock. *)
Definition clean_old_data_while (write_locked : bool) (minutes : Z) : M unit :=
  now <- int_time_time;;
  let cutoff := now - minutes * 60 in
  conn <- get_db;;
  try_finally
    (try_except
       (executed <- cursor_execute write_locked (execute_delete conn cutoff);;
        let '(conn, deleted) := executed in
        commit conn;;;
        if 0 <? deleted then print (Cleaned_up deleted) else ret tt)
       (λ e, print (Error_cleaning (str e))))
    (close conn).

(** [clean_old_data] called on its own: no other connection is around. *)
Definition clean_old_data (minutes : Z) : M unit := clean_old_data_while false minutes.

(** The body of [for sensor_id in SENSORS], on the connection [conn]. *)
Fixpoint insert_each_sensor (sensors : list string) (timestamp : Z) (conn : Db) : M Db :=
  match sensors with
  | [] => ret conn
  | sensor_id :: rest =>
      temperature <- generate_random_walk_value sensor_id "temp";;
      humidity <- generate_random_walk_value sensor_id "humidity";;
      conn <- execute_insert conn timestamp sensor_id temperature humidity;;
      insert_each_sensor rest timestamp conn
  end.

(** [conn] and [cursor] are locals: they are referenced until the function
    returns, so also during its last statement, the call of
    [clean_old_data]. [write_locked] is what the closed connection keeps
    during that call. *)
Definition generate_and_insert_metric (time_index : Z) : M unit :=
  timestamp <- int_time_time;;
  conn <- get_db;;
  write_locked <-
    try_finally
      (try_except
         (conn <- insert_each_sensor SENSORS timestamp conn;;
          commit conn;;;
          print Inserted_metrics;;;
          ret false)
         (λ e,
            (if contains "UNIQUE constraint failed" (str e)
             then ret tt
             else print (Error_inserting (str e)));;;
            ret (keeps_write_lock e)))
      (close conn);;
  clean_old_data_while write_locked 60.

(** [while True] of [run], left by [KeyboardInterrupt] after [ticks] rounds;
    [time.sleep(1)] only lets the clock advance. *)
Fixpoint run_loop (ticks : nat) (time_index : Z) : M unit :=
  match ticks with
  | O => ret tt
  | S ticks =>
      generate_and_insert_metric time_index;;;
      run_loop ticks (time_index + 1)
  end.

Definition run (ticks : nat) : M unit :=
  print (Text "Starting continuous data generator...");;;
  print (Text "Sensors: THS No. 1, THS No. 2, THS No. 3");;;
  print (Text ("Press Ctrl+C to stop" +:+ newline));;;
  run_loop ticks 0;;;
  print (Text (newline +:+ "Stopped.")).

(** ** db.py *)

Definition get_metrics_last_n_minutes (minutes : Z) : M (list value) :=
  conn <- get_db;;
  now <- int_time_time;;
  let cutoff := now - minutes * 60 in
  let rows := execute_select conn cutoff in
  close conn;;;
  ret (dict_of_row <$> rows).

(** ** main.py *)

Definition get_metrics : M value :=
  metrics <- get_metrics_last_n_minutes 60;;
  now <- int_time_time;;
  ret (Dict [("timestamp", Int now); ("data", List metrics)]).

Definition health_check : M value := ret (Dict [("status", Str "ok")]).

(** The body of a response. What FastAPI generates by itself, the OpenAPI
    schema and the two documentation pages, is not spelled out. *)
Inductive Body :=
  | JSON (content : value)
  | PlainText (text : string)
  | Generated
  | Empty.

Record Response := mkResponse {
  status_code : Z;
  body : Body
}.

Inductive endpoint :=
  | Builtin
  | Handler (handler : M value).

(** The routes of [app] in the order of their registration:
    [FastAPI(title=...)] adds the schema, the documentation pages and the
    OAuth2 redirect page of the first under their default paths, then come
    the two routes registered with [@app.get]. *)
Definition app : list (string * endpoint) :=
  [("/openapi.json", Builtin); ("/docs", Builtin); ("/docs/oauth2-redirect", Builtin);
   ("/redoc", Builtin);
   ("/api/metrics", Handler get_metrics); ("/health", Handler health_check)].

(** A route without parameters is compiled to the regular expression
    [^route$] and tried with [re.match] on the decoded path of the request;
    [$] also matches before a newline that ends the path. *)
Definition route_matches (route path : string) : bool :=
  String.eqb path route || String.eqb path (route +:+ newline).

(** [path.endswith("/")] *)
Fixpoint endswith_slash (path : string) : bool :=
  match path with
  | EmptyString => false
  | String c EmptyString => Ascii.eqb c "/"
  | String _ rest => endswith_slash rest
  end.

(** [path.rstrip("/")] *)
Fixpoint rstrip_slash (path : string) : string :=
  match path with
  | EmptyString => EmptyString
  | String c rest =>
      match rstrip_slash rest with
      | EmptyString => if Ascii.eqb c "/" then EmptyString else String c EmptyString
      | rest => String c rest
      end
  end.

(** A GET request without an [Origin] header. The first route that matches
    answers: a route of FastAPI's own with 200, a handler with 200 and its
    return value encoded as JSON. An exception that leaves the handler or the
    encoding is answered 500. When no route matches, the router redirects
    with 307 if the path with its trailing slashes removed, or with one
    added, matches a route, and answers 404 otherwise. *)
Definition http_get (path : string) : M Response :=
  match List.find (λ route, route_matches (fst route) path) app with
  | Some (_, Builtin) => ret (mkResponse 200 Generated)
  | Some (_, Handler handler) =>
      try_except
        (content <- handler;;
         if json_compliant content
         then ret (mkResponse 200 (JSON content))
         else raise (ValueError "Out of range float values are not JSON compliant"))
        (λ _, ret (mkResponse 500 (PlainText "Internal Server Error")))
  | None =>
      let redirect_path :=
        if endswith_slash path then rstrip_slash path else path +:+ "/" in
      if negb (String.eqb path "/")
         && existsb (λ route, route_matches (fst route) redirect_path) app
      then ret (mkResponse 307 Empty)
      else ret (mkResponse 404 (JSON (Dict [("detail", Str "Not Found")])))
  end.

(** [steps] successive calls of the generator for one sensor and metric,
    with the values they return. *)
Fixpoint walk (steps : nat) (sensor_id metric_type : string) : M (list float) :=
  match steps with
  | O => ret []
  | S steps =>
      value <- generate_random_walk_value sensor_id metric_type;;
      values <- walk steps sensor_id metric_type;;
      ret (value :: values)
  end.

End Program.

(** ** db.py: [init_db] *)

(** [CREATE TABLE IF NOT EXISTS] and the two [CREATE INDEX IF NOT EXISTS]:
    every [Db] of this development has the table and its indexes, so the
    three statements find them in place; then [commit] and [close]. *)
Definition init_db : M unit :=
  conn <- get_db;;
  commit conn;;;
  close conn.

(** ** init_db.py *)

Module InitDb.

(** How a loop body hands control back: on to the next round with the loop's
    variables, or out of the function by [return]. *)
Inductive flow (A : Type) :=
  | Next (a : A)
  | Return.
Arguments Next {A} a.
Arguments Return {A}.

Section InitDb.

Variable wall_clock : nat → Z.
Variable random_source : nat → nat.
(** [datetime.fromtimestamp(t).strftime("%Y-%m-%d %H:%M:%S")], which depends on
    the time zone of the machine. *)
Variable strftime : Z → string.

Definition HOURS : Z := 4.
Definition DATA_POINTS : Z := HOURS * 3600.

(** The module repeats [SENSORS], the four bounds and the list of changes of
    [continuous_data.py] with the same values; they are shared here. *)
Definition INITIAL_VALUES : gmap string (gmap string float) :=
  <["THS No. 1" := sensor_values f_21_0 f_55_0]>
  (<["THS No. 2" := sensor_values f_22_0 f_58_0]>
  (<["THS No. 3" := sensor_values f_20_5 f_52_0]> ∅)).

Definition generate_random_walk_value (sensor_id metric_type : string)
    (current_value : float) : M float :=
  change <- random_choice random_source CHANGES;;
  let new_value := fadd current_value change in
  let new_value :=
    if String.eqb metric_type "temp"
    then py_max TEMP_MIN (py_min TEMP_MAX new_value)
    else py_max HUMIDITY_MIN (py_min HUMIDITY_MAX new_value) in
  ret new_value.

(** [{sensor: INITIAL_VALUES[sensor].copy() for sensor in SENSORS}] *)
Fixpoint copy_initial_values (sensors : list string)
    (acc : gmap string (gmap string float)) : M (gmap string (gmap string float)) :=
  match sensors with
  | [] => ret acc
  | sensor :: rest =>
      of_sensor <- getitem INITIAL_VALUES sensor;;
      copy_initial_values rest (<[sensor := of_sensor]> acc)
  end.

(** The body of [for sensor_id in SENSORS] for data point [i]. *)
Fixpoint insert_data_point (sensors : list string) (i timestamp : Z) (conn : Db)
    (current_values : gmap string (gmap string float))
    : M (flow (Db * gmap string (gmap string float))) :=
  match sensors with
  | [] => ret (Next (conn, current_values))
  | sensor_id :: rest =>
      of_sensor <- getitem current_values sensor_id;;
      current_temp <- getitem of_sensor "temp";;
      temperature <- generate_random_walk_value sensor_id "temp" current_temp;;
      of_sensor <- getitem current_values sensor_id;;
      current_humidity <- getitem of_sensor "humidity";;
      humidity <- generate_random_walk_value sensor_id "humidity" current_humidity;;
      of_sensor <- getitem current_values sensor_id;;
      let current_values :=
        <[sensor_id := <["temp" := temperature]> of_sensor]> current_values in
      of_sensor <- getitem current_values sensor_id;;
      let current_values :=
        <[sensor_id := <["humidity" := humidity]> of_sensor]> current_values in
      inserted <-
        try_except
          (conn <- execute_insert conn timestamp sensor_id temperature humidity;;
           ret (Next conn))
          (λ e,
             print (Text ("Error inserting data point " +:+ pretty i +:+ " for "
                          +:+ sensor_id +:+ ": " +:+ str e));;;
             (* conn.rollback(); conn.close(); return *)
             close conn;;;
             ret Return);;
      match inserted with
      | Next conn => insert_data_point rest i timestamp conn current_values
      | Return => ret Return
      end
  end.

(** The body of [for i in range(DATA_POINTS)], over the values of [i]. *)
Fixpoint insert_data_points (points : list Z) (start_time : Z) (conn : Db)
    (current_values : gmap string (gmap string float))
    : M (flow (Db * gmap string (gmap string float))) :=
  match points with
  | [] => ret (Next (conn, current_values))
  | i :: rest =>
      let timestamp := start_time + i in
      done <- insert_data_point SENSORS i timestamp conn current_values;;
      match done with
      | Next (conn, current_values) =>
          insert_data_points rest start_time conn current_values
      | Return => ret Return
      end
  end.

Definition populate_database : M unit :=
  print (Text ("Initializing database with "
               +:+ pretty (DATA_POINTS * Z.of_nat (length SENSORS))
               +:+ " data points (" +:+ pretty HOURS +:+ " hours × "
               +:+ pretty (length SENSORS) +:+ " sensors)..."));;;
  init_db;;;
  conn <- get_db;;
  now <- int_time_time wall_clock;;
  let start_time := now - HOURS * 3600 in
  current_values <- copy_initial_values SENSORS ∅;;
  done <- insert_data_points (seqZ 0 DATA_POINTS) start_time conn current_values;;
  match done with
  | Return => ret tt
  | Next (conn, _) =>
      commit conn;;;
      close conn;;;
      print (Text "✓ Database populated!");;;
      print (Text ("  Data range: " +:+ strftime start_time +:+ " → now"));;;
      print (Text ("  Sensors: " +:+ String.concat ", " SENSORS));;;
      print (Text "  Temperature: 16.0°C - 26.0°C (random walk)");;;
      print (Text "  Humidity: 40.0% - 70.0% (random walk)");;;
      print (Text ("  Total records: " +:+ pretty (DATA_POINTS * Z.of_nat (length SENSORS))))
  end.

End InitDb.

End InitDb.

(** ** Vocabulary of the properties *)

(** The program right after start-up, on a database whose table is empty. *)
Definition initial_world : World := mkWorld LAST_VALUES_initial empty_db [] 0 0.

(** The walk state has both entries of a sensor. *)
Definition has_walk_state (last_values : gmap string (gmap string float))
    (sensor_id : string) : Prop :=
  ∃ of_sensor, last_values !! sensor_id = Some of_sensor
    ∧ is_Some (of_sensor !! "temp") ∧ is_Some (of_sensor !! "humidity").

(** The key of the UNIQUE constraint. *)
Definition key_of (r : Row) : Z * string := (timestamp r, sensor_id r).

(** The world in which the prune of a tick starts, from the outcome of the
    loop over the sensors: a commit and a line, or the exception handler. *)
Definition after_inserts (outcome : result Db) (w1 : World) : World :=
  match outcome with
  | Ok conn => add_stdout Inserted_metrics (set_database conn w1)
  | Raise e =>
      if contains "UNIQUE constraint failed" (str e)
      then w1
      else add_stdout (Error_inserting (str e)) w1
  end.

(** Whether the connection of a tick keeps the write lock during the prune,
    from the outcome of the loop over the sensors. *)
Definition lock_after (outcome : result Db) : bool :=
  match outcome with
  | Ok _ => false
  | Raise e => keeps_write_lock e
  end.

(** The world a prune with the given cutoff leaves: it has read the clock
    and, unless it found the file locked, deleted the rows before the cutoff
    and reported their number. *)
Definition after_prune (write_locked : bool) (cutoff : Z) (w : World) : World :=
  if write_locked
  then mkWorld (LAST_VALUES w) (database w)
         (stdout w ++ [Error_cleaning DATABASE_LOCKED])
         (random_calls w) (S (time_calls w))
  else mkWorld (LAST_VALUES w) (fst (execute_delete (database w) cutoff))
         (stdout w ++ if 0 <? snd (execute_delete (database w) cutoff)
                      then [Cleaned_up (snd (execute_delete (database w) cutoff))]
                      else [])
         (random_calls w) (S (time_calls w)).

(** Every temperature and humidity of the rows is a finite number. *)
Definition finite_readings (rows : list Row) : Prop :=
  Forall (λ r, is_finite (temperature r) = true ∧ is_finite (humidity r) = true) rows.

(** The table holds a row of sensor 2 for second 1000, the clock reads 1000. *)
Definition world_with_row_of_sensor_2 : World :=
  set_database (mkDb [mkRow 1 1000 "THS No. 2" f_22_0 f_58_0] 1) initial_world.

(** [r1] is not after [r2] in the order "by sensor_id, then by timestamp
    ascending". *)
Definition by_sensor_then_timestamp (r1 r2 : Row) : Prop :=
  String.ltb (sensor_id r1) (sensor_id r2) = true
  ∨ (sensor_id r1 = sensor_id r2 ∧ timestamp r1 ≤ timestamp r2).

(** No two rows share the key of the UNIQUE constraint. *)
Definition unique_keys (rows : list Row) : Prop := NoDup (key_of <$> rows).

(** Every row holds a temperature and a humidity inside their ranges. *)
Definition rows_in_range (rows : list Row) : Prop :=
  Forall (λ r, fle TEMP_MIN (temperature r) = true ∧ fle (temperature r) TEMP_MAX = true
               ∧ fle HUMIDITY_MIN (humidity r) = true
               ∧ fle (humidity r) HUMIDITY_MAX = true) rows.

(** The rowids are pairwise different and none is above the AUTOINCREMENT
    counter. *)
Definition rowids_in_sequence (db : Db) : Prop :=
  NoDup (id <$> metrics db) ∧ Forall (λ r, id r ≤ sqlite_sequence db) (metrics db).

(** The keys [populate_database] writes from [start_time] on, in its order. *)
Definition keys_of_points (start_time : Z) (points : list Z) : list (Z * string) :=
  i ← points; (λ s, (start_time + i, s)) <$> SENSORS.

(** The row lies in the span that [populate_database] writes when its
    first timestamp is [start_time]: one of the [DATA_POINTS] seconds from
    there on, for one of the sensors. *)
Definition in_seed_span (start_time : Z) (r : Row) : Prop :=
  start_time ≤ timestamp r < start_time + InitDb.DATA_POINTS ∧ sensor_id r ∈ SENSORS.

(** The keys written by [n] ticks in a row when the first of them makes the
    [first]-th reading of the clock: a tick reads the clock twice, for its
    timestamp and for its prune. *)
Fixpoint tick_keys (clock : nat → Z) (first n : nat) : list (Z * string) :=
  match n with
  | O => []
  | S n => ((λ s, (clock first, s)) <$> SENSORS) ++ tick_keys clock (S (S first)) n
  end.

(** The range the generator's branch on [metric_type] clamps to. *)
Definition range_of (metric_type : string) : float * float :=
  if String.eqb metric_type "temp"
  then (TEMP_MIN, TEMP_MAX)
  else (HUMIDITY_MIN, HUMIDITY_MAX).

Definition in_range (metric_type : string) (v : float) : bool :=
  fle (fst (range_of metric_type)) v && fle v (snd (range_of metric_type)).

Definition clamp (metric_type : string) (v : float) : float :=
  py_max (fst (range_of metric_type)) (py_min (snd (range_of metric_type)) v).

(** Every value held in the walk state lies in the range of its metric. *)
Definition walk_state_in_range (last_values : gmap string (gmap string float)) : Prop :=
  ∀ sensor_id of_sensor metric_type v,
    last_values !! sensor_id = Some of_sensor →
    of_sensor !! metric_type = Some v →
    in_range metric_type v = true.

(** ** Float comparison *)

Ltac fold_pos_compare :=
  repeat match goal with
  | |- context [PosDef.Pos.compare_cont Eq ?a ?b] =>
      change (PosDef.Pos.compare_cont Eq a b) with (Pos.compare a b)
  end.

Lemma SFcompare_antisym x y : SFcompare y x = CompOpp <$> SFcompare x y.
Proof.
  destruct x as [[]|[]| |[] mx ex], y as [[]|[]| |[] my ey]; simpl; try reflexivity.
  all: fold_pos_compare; rewrite (Z.compare_antisym ex ey), (Pos.compare_antisym mx my).
  all: destruct (ex ?= ey)%Z; simpl; try reflexivity.
  all: destruct (mx ?= my)%positive; reflexivity.
Qed.


Lemma flt_fle x y : flt x y = true → fle x y = true.
Proof. unfold flt, fle, SFltb, SFleb. destruct (SFcompare x y) as [[]|]; congruence. Qed.


Lemma range_of_ordered metric_type :
  flt (fst (range_of metric_type)) (snd (range_of metric_type)) = true
  ∧ fle (fst (range_of metric_type)) (fst (range_of metric_type)) = true
  ∧ fle (snd (range_of metric_type)) (snd (range_of metric_type)) = true.
Proof. unfold range_of. destruct (String.eqb metric_type "temp"); repeat split. Qed.

Lemma clamp_in_range metric_type v : in_range metric_type (clamp metric_type v) = true.
Proof.
  destruct (range_of_ordered metric_type) as (Hlt & Hlo & Hhi).
  unfold in_range, clamp, py_max, py_min.
  destruct (flt v (snd (range_of metric_type))) eqn:Hv.
  - destruct (flt (fst (range_of metric_type)) v) eqn:Hv'.
    + by rewrite (flt_fle _ _ Hv), (flt_fle _ _ Hv').
    + by rewrite Hlo, (flt_fle _ _ Hlt).
  - by rewrite Hlt, Hhi, (flt_fle _ _ Hlt).
Qed.



Lemma clamp_branches metric_type v :
  (if String.eqb metric_type "temp"
   then py_max TEMP_MIN (py_min TEMP_MAX v)
   else py_max HUMIDITY_MIN (py_min HUMIDITY_MAX v)) = clamp metric_type v.
Proof. unfold clamp, range_of. by destruct (String.eqb metric_type "temp"). Qed.

Lemma in_range_not_nan metric_type v : in_range metric_type v = true → is_nan v = false.
Proof.
  unfold in_range, range_of.
  destruct v; try done. by destruct (String.eqb metric_type "temp").
Qed.

Lemma in_range_finite metric_type v : in_range metric_type v = true → is_finite v = true.
Proof.
  unfold in_range, range_of.
  destruct v as [|[]| |]; try done; by destruct (String.eqb metric_type "temp").
Qed.

(** An INSERT of values that are numbers can only fail on the key. *)
Lemma execute_insert_numbers conn ts sid temp hum :
  is_nan temp = false →
  is_nan hum = false →
  execute_insert conn ts sid temp hum
  = if key_taken ts sid (metrics conn)
    then raise (IntegrityError UNIQUE_FAILED)
    else ret (mkDb (metrics conn ++ [mkRow (next_rowid conn) ts sid temp hum])
                (next_rowid conn)).
Proof. unfold execute_insert. by intros -> ->. Qed.

(** ** The value generator *)

Section Generator.

Variable random_source : nat → nat.

Lemma random_choice_CHANGES w :
  ∃ change, CHANGES !! (random_source (random_calls w) `mod` 5)%nat = Some change
    ∧ change ∈ CHANGES
    ∧ random_choice random_source CHANGES w = (Ok change, tick_random w).
Proof.
  unfold random_choice. change (length CHANGES) with 5%nat.
  destruct (lookup_lt_is_Some_2 CHANGES
              (random_source (random_calls w) `mod` 5)%nat) as [c Hc].
  { apply Nat.mod_upper_bound. discriminate. }
  exists c. rewrite Hc. split; [done|]. split; [by eapply list_elem_of_lookup_2|done].
Qed.

(** One call of the generator on an entry that exists. *)
Lemma generate_random_walk_value_step w sensor_id metric_type of_sensor last_value :
  LAST_VALUES w !! sensor_id = Some of_sensor →
  of_sensor !! metric_type = Some last_value →
  ∃ change, CHANGES !! (random_source (random_calls w) `mod` 5)%nat = Some change
    ∧ generate_random_walk_value random_source sensor_id metric_type w
      = (Ok (clamp metric_type (fadd last_value change)),
         mkWorld (<[sensor_id := <[metric_type := clamp metric_type (fadd last_value change)]>
                                   of_sensor]> (LAST_VALUES w))
                 (database w) (stdout w) (S (random_calls w)) (time_calls w)).
Proof.
  intros Hs Hm. destruct (random_choice_CHANGES w) as (c & Hin & _ & Hc).
  exists c. split; [done|].
  unfold generate_random_walk_value, bind, get_LAST_VALUES, getitem.
  rewrite Hs. unfold ret at 1. rewrite Hm. unfold ret at 1. rewrite Hc.
  by rewrite clamp_branches.
Qed.

Lemma walk_state_in_range_insert last_values sensor_id metric_type of_sensor v :
  last_values !! sensor_id = Some of_sensor →
  in_range metric_type v = true →
  walk_state_in_range last_values →
  walk_state_in_range (<[sensor_id := <[metric_type := v]> of_sensor]> last_values).
Proof.
  intros Hs Hv Hinv sid d mt x Hd Hx.
  destruct (decide (sensor_id = sid)) as [->|Hne].
  - rewrite lookup_insert_eq in Hd. injection Hd as <-.
    destruct (decide (metric_type = mt)) as [->|Hne'].
    + rewrite lookup_insert_eq in Hx. by injection Hx as <-.
    + rewrite lookup_insert_ne in Hx by done. by eapply Hinv.
  - rewrite lookup_insert_ne in Hd by done. by eapply Hinv.
Qed.

Lemma walk_in_range steps : ∀ w sensor_id metric_type of_sensor last_value,
  LAST_VALUES w !! sensor_id = Some of_sensor →
  of_sensor !! metric_type = Some last_value →
  ∃ values w', walk random_source steps sensor_id metric_type w = (Ok values, w')
    ∧ length values = steps
    ∧ Forall (λ v, in_range metric_type v = true) values
    ∧ (∃ v, (LAST_VALUES w' !! sensor_id ≫= (.!! metric_type)) = Some v
            ∧ (in_range metric_type last_value = true → in_range metric_type v = true))
    ∧ (walk_state_in_range (LAST_VALUES w) → walk_state_in_range (LAST_VALUES w')).
Proof.
  induction steps as [|steps IH]; intros w sensor_id metric_type of_sensor last_value Hs Hm.
  - exists [], w. do 3 (split; [done|]). split; [|done].
    exists last_value. by rewrite Hs; simpl.
  - destruct (generate_random_walk_value_step w _ _ _ _ Hs Hm) as (c & _ & Hgen).
    set (v := clamp metric_type (fadd last_value c)) in *.
    set (w1 := mkWorld _ _ _ _ _) in Hgen.
    destruct (IH w1 sensor_id metric_type (<[metric_type := v]> of_sensor) v)
      as (values & w' & Hwalk & Hlen & Hall & (v' & Hv' & Hr) & Hinv).
    { apply lookup_insert_eq. }
    { apply lookup_insert_eq. }
    exists (v :: values), w'. simpl. unfold bind at 1. rewrite Hgen.
    unfold bind at 1. rewrite Hwalk. split; [done|]. split; [|split; [|split]].
    + simpl. by rewrite Hlen.
    + constructor; [apply clamp_in_range|done].
    + exists v'. split; [done|]. intros _. apply Hr, clamp_in_range.
    + intros H. apply Hinv. simpl.
      apply walk_state_in_range_insert; [done|apply clamp_in_range|done].
Qed.


(** C10. Whatever float is stored as the last value, out of range or not
    a number included, one call of the generator returns a value in the range
    of the metric and stores exactly that value as the new last value; the
    other entries keep their values, so a walk state that is in range stays
    in range. *)
Theorem generator_establishes_range w sensor_id metric_type of_sensor last_value :
  LAST_VALUES w !! sensor_id = Some of_sensor →
  of_sensor !! metric_type = Some last_value →
  ∃ new_value w',
    generate_random_walk_value random_source sensor_id metric_type w = (Ok new_value, w')
    ∧ in_range metric_type new_value = true
    ∧ (LAST_VALUES w' !! sensor_id ≫= (.!! metric_type)) = Some new_value
    ∧ (walk_state_in_range (LAST_VALUES w) → walk_state_in_range (LAST_VALUES w'))
    ∧ ∀ steps, ∃ values w'',
        walk random_source steps sensor_id metric_type w' = (Ok values, w'')
        ∧ Forall (λ v, in_range metric_type v = true) values
        ∧ ∃ v, (LAST_VALUES w'' !! sensor_id ≫= (.!! metric_type)) = Some v
               ∧ in_range metric_type v = true.
Proof.
  intros Hs Hm.
  destruct (generate_random_walk_value_step w _ _ _ _ Hs Hm) as (c & _ & Hgen).
  set (v := clamp metric_type (fadd last_value c)) in *.
  set (w1 := mkWorld _ _ _ _ _) in Hgen.
  assert (LAST_VALUES w1 !! sensor_id = Some (<[metric_type := v]> of_sensor)) as Hs1
    by apply lookup_insert_eq.
  exists v, w1. split; [done|]. split; [apply clamp_in_range|]. split.
  { rewrite Hs1. simpl. apply lookup_insert_eq. }
  split.
  { intros H. apply walk_state_in_range_insert; [done|apply clamp_in_range|done]. }
  intros steps.
  destruct (walk_in_range steps w1 sensor_id metric_type _ v Hs1)
    as (values & w'' & Hwalk & _ & Hall & (v' & Hv' & Hr) & _).
  { apply lookup_insert_eq. }
  exists values, w''. repeat split; [done..|].
  exists v'. split; [done|]. apply Hr, clamp_in_range.
Qed.

(** C7, as the code has it. The returned value is a function of the last
    value, the metric and the random draw, but the generator is not free of
    side effects: it reads the last value from the module-level [LAST_VALUES]
    and itself stores the returned value there as the new last value. Nothing
    else is modified: the other entries of [LAST_VALUES], the database and the
    output keep their values. *)
Theorem generator_updates_its_entry_only w sensor_id metric_type of_sensor last_value :
  LAST_VALUES w !! sensor_id = Some of_sensor →
  of_sensor !! metric_type = Some last_value →
  ∃ change new_value w',
    CHANGES !! (random_source (random_calls w) `mod` 5)%nat = Some change
    ∧ generate_random_walk_value random_source sensor_id metric_type w = (Ok new_value, w')
    ∧ new_value = clamp metric_type (fadd last_value change)
    ∧ LAST_VALUES w'
      = <[sensor_id := <[metric_type := new_value]> of_sensor]> (LAST_VALUES w)
    ∧ (∀ sensor_id' metric_type',
         (sensor_id', metric_type') ≠ (sensor_id, metric_type) →
         LAST_VALUES w' !! sensor_id' ≫= (.!! metric_type')
         = LAST_VALUES w !! sensor_id' ≫= (.!! metric_type'))
    ∧ database w' = database w
    ∧ stdout w' = stdout w
    ∧ time_calls w' = time_calls w
    ∧ random_calls w' = S (random_calls w).
Proof.
  intros Hs Hm.
  destruct (generate_random_walk_value_step w _ _ _ _ Hs Hm) as (c & Hc & Hgen).
  eexists c, _, _. split; [done|]. split; [exact Hgen|]. split; [done|].
  split; [done|]. split; [|done]. simpl.
  intros sid mt Hne. destruct (decide (sensor_id = sid)) as [->|Hsid].
  - rewrite lookup_insert_eq, Hs. simpl.
    rewrite lookup_insert_ne; [done|]. congruence.
  - by rewrite lookup_insert_ne.
Qed.

End Generator.


Lemma generator_establishes_range_witness :
  ∃ new_value w',
    generate_random_walk_value (λ _, 0%nat) "THS No. 2" "humidity"
      (set_LAST_VALUES (<["THS No. 2" := sensor_values S754_nan (S754_infinity true)]>
                          LAST_VALUES_initial) initial_world)
    = (Ok new_value, w')
    ∧ in_range "humidity" new_value = true
    ∧ (LAST_VALUES w' !! "THS No. 2" ≫= (.!! "humidity")) = Some new_value.
Proof.
  destruct (generator_establishes_range (λ _, 0%nat)
              (set_LAST_VALUES (<["THS No. 2" := sensor_values S754_nan (S754_infinity true)]>
                                  LAST_VALUES_initial) initial_world)
              "THS No. 2" "humidity" (sensor_values S754_nan (S754_infinity true))
              (S754_infinity true))
    as (v & w' & Hgen & Hr & Hst & _); [reflexivity..|].
  exists v, w'. by repeat split.
Defined.

(** On the upper bound a positive perturbation leaves the range before the
    clamp, and the generator answers the bound. *)
Example generate_at_upper_bound :
  flt TEMP_MAX (fadd TEMP_MAX f_0_1) = true
  ∧ fst (generate_random_walk_value (λ _, 4%nat) "THS No. 1" "temp"
           (set_LAST_VALUES (<["THS No. 1" := sensor_values TEMP_MAX f_55_0]>
                               LAST_VALUES_initial) initial_world))
    = Ok TEMP_MAX.
Proof. split; reflexivity. Qed.

Example generate_at_lower_bound :
  flt (fadd HUMIDITY_MIN f_neg_0_05) HUMIDITY_MIN = true
  ∧ fst (generate_random_walk_value (λ _, 1%nat) "THS No. 3" "humidity"
           (set_LAST_VALUES (<["THS No. 3" := sensor_values f_20_5 HUMIDITY_MIN]>
                               LAST_VALUES_initial) initial_world))
    = Ok HUMIDITY_MIN.
Proof. split; reflexivity. Qed.

(** C7 as stated fails: one call on the freshly loaded module changes the
    module-level [LAST_VALUES]. *)
Lemma generator_modifies_LAST_VALUES :
  LAST_VALUES (snd (generate_random_walk_value (λ _, 4%nat) "THS No. 1" "temp" initial_world))
  ≠ LAST_VALUES initial_world.
Proof.
  intros H.
  apply (f_equal (λ m : gmap string (gmap string float), m !! "THS No. 1" ≫= (.!! "temp"))) in H.
  vm_compute in H. discriminate H.
Qed.

Lemma generator_updates_its_entry_only_witness :
  ∃ new_value w',
    generate_random_walk_value (λ _, 4%nat) "THS No. 1" "temp" initial_world
    = (Ok new_value, w')
    ∧ database w' = database initial_world
    ∧ stdout w' = stdout initial_world.
Proof.
  destruct (generator_updates_its_entry_only (λ _, 4%nat) initial_world
              "THS No. 1" "temp" (sensor_values f_21_0 f_55_0) f_21_0)
    as (c & v & w' & _ & Hgen & _ & _ & _ & Hdb & Hout & _); [reflexivity..|].
  exists v, w'. by repeat split.
Defined.

(** ** The sampler *)

Section Sampler.

Variable random_source : nat → nat.

(** The generator touches neither the database, the output nor the clock. *)
Lemma generate_random_walk_value_frame sensor_id metric_type w r w' :
  generate_random_walk_value random_source sensor_id metric_type w = (r, w') →
  database w' = database w ∧ stdout w' = stdout w ∧ time_calls w' = time_calls w.
Proof.
  unfold generate_random_walk_value, bind, get_LAST_VALUES, getitem, random_choice,
    ret, raise.
  intros H. repeat case_match; by simplify_eq/=.
Qed.

(** A value the generator returns is in the range of its metric, and the
    walk state stays in range if it was. *)
Lemma generate_random_walk_value_in_range sensor_id metric_type w v w' :
  generate_random_walk_value random_source sensor_id metric_type w = (Ok v, w') →
  in_range metric_type v = true
  ∧ (walk_state_in_range (LAST_VALUES w) → walk_state_in_range (LAST_VALUES w')).
Proof.
  intros H.
  destruct (LAST_VALUES w !! sensor_id) as [d0|] eqn:Hd0.
  2: { unfold generate_random_walk_value, bind, get_LAST_VALUES, getitem in H.
       by rewrite Hd0 in H. }
  destruct (d0 !! metric_type) as [v0|] eqn:Hv0.
  2: { unfold generate_random_walk_value, bind, get_LAST_VALUES, getitem in H.
       rewrite Hd0 in H. unfold ret at 1 in H. by rewrite Hv0 in H. }
  destruct (generate_random_walk_value_step random_source w _ _ _ _ Hd0 Hv0)
    as (c & _ & Hgen).
  rewrite Hgen in H. injection H as <- <-. split; [apply clamp_in_range|].
  simpl. intros Hinv. apply walk_state_in_range_insert; [done|apply clamp_in_range|done].
Qed.

(** One round of the loop over the sensors: the two values are clamped, so
    they are numbers, and the INSERT can only fail on the key. *)
Lemma insert_each_sensor_cons s rest ts conn w :
  insert_each_sensor random_source (s :: rest) ts conn w
  = match generate_random_walk_value random_source s "temp" w with
    | (Ok t, w1) =>
        match generate_random_walk_value random_source s "humidity" w1 with
        | (Ok h, w2) =>
            if key_taken ts s (metrics conn)
            then (Raise (IntegrityError UNIQUE_FAILED), w2)
            else insert_each_sensor random_source rest ts
                   (mkDb (metrics conn ++ [mkRow (next_rowid conn) ts s t h])
                      (next_rowid conn)) w2
        | (Raise e, w2) => (Raise e, w2)
        end
    | (Raise e, w1) => (Raise e, w1)
    end.
Proof.
  cbn [insert_each_sensor]. unfold bind at 1.
  destruct (generate_random_walk_value random_source s "temp" w) as [[t|e] w1] eqn:Ht;
    [|done].
  unfold bind at 1.
  destruct (generate_random_walk_value random_source s "humidity" w1) as [[h|e] w2] eqn:Hh;
    [|done].
  apply generate_random_walk_value_in_range in Ht as [Ht%in_range_not_nan _].
  apply generate_random_walk_value_in_range in Hh as [Hh%in_range_not_nan _].
  unfold bind at 1. rewrite execute_insert_numbers by done.
  by destruct (key_taken ts s (metrics conn)).
Qed.

(** What the loop over the sensors can do: the file and the output are left
    alone, and a connection that comes out of it holds one more row per
    sensor, each with the timestamp it was given. *)
Lemma insert_each_sensor_outcome sensors : ∀ ts conn w r w',
  insert_each_sensor random_source sensors ts conn w = (r, w') →
  database w' = database w
  ∧ stdout w' = stdout w
  ∧ time_calls w' = time_calls w
  ∧ ∀ conn', r = Ok conn' →
      ∃ rows, metrics conn' = metrics conn ++ rows
        ∧ sensor_id <$> rows = sensors
        ∧ Forall (λ r, timestamp r = ts) rows.
Proof.
  induction sensors as [|s rest IH]; intros ts conn w r w'.
  { intros [= <- <-]. repeat split. intros conn' [= <-]. exists []. by rewrite app_nil_r. }
  rewrite insert_each_sensor_cons.
  destruct (generate_random_walk_value random_source s "temp" w) as [[t|e] w1] eqn:Ht;
    apply generate_random_walk_value_frame in Ht as (Ht1 & Ht2 & Ht3);
    [|intros [= <- <-]; by rewrite Ht1, Ht2, Ht3].
  destruct (generate_random_walk_value random_source s "humidity" w1) as [[h|e] w2] eqn:Hh;
    apply generate_random_walk_value_frame in Hh as (Hh1 & Hh2 & Hh3);
    [|intros [= <- <-]; by rewrite Hh1, Hh2, Hh3, Ht1, Ht2, Ht3].
  destruct (key_taken ts s (metrics conn)).
  { intros [= <- <-]. by rewrite Hh1, Hh2, Hh3, Ht1, Ht2, Ht3. }
  intros Hrest.
  apply IH in Hrest as (Hdb & Hout & Htime & Hrows).
  rewrite Hdb, Hout, Htime, Hh1, Hh2, Hh3, Ht1, Ht2, Ht3.
  split; [done|]. split; [done|]. split; [done|].
  intros conn' Hok. destruct (Hrows conn' Hok) as (rows & Hm & Hs & Hts).
  exists (mkRow (next_rowid conn) ts s t h :: rows). simpl in Hm.
  rewrite Hm, <-app_assoc. split; [done|]. split; [by rewrite fmap_cons, Hs|].
  by constructor.
Qed.

Lemma generate_random_walk_value_keeps_state sensor_id metric_type w r w' s :
  generate_random_walk_value random_source sensor_id metric_type w = (r, w') →
  has_walk_state (LAST_VALUES w) s → has_walk_state (LAST_VALUES w') s.
Proof.
  intros H Hstate.
  destruct (LAST_VALUES w !! sensor_id) as [d0|] eqn:Hd0.
  2: { unfold generate_random_walk_value, bind, get_LAST_VALUES, getitem in H.
       rewrite Hd0 in H. by injection H as <- <-. }
  destruct (d0 !! metric_type) as [v0|] eqn:Hv0.
  2: { unfold generate_random_walk_value, bind, get_LAST_VALUES, getitem in H.
       rewrite Hd0 in H. unfold ret at 1 in H. rewrite Hv0 in H.
       by injection H as <- <-. }
  destruct (generate_random_walk_value_step random_source w _ _ _ _ Hd0 Hv0)
    as (c & _ & Hgen).
  rewrite Hgen in H. injection H as <- <-. simpl.
  destruct Hstate as (d & Hd & Ht & Hh).
  destruct (decide (sensor_id = s)) as [->|Hne].
  - eexists. rewrite lookup_insert_eq. split; [done|].
    assert (d = d0) as -> by congruence.
    split; apply lookup_insert_is_Some'; auto.
  - exists d. by rewrite lookup_insert_ne.
Qed.

Lemma generate_random_walk_value_ok sensor_id metric_type w :
  has_walk_state (LAST_VALUES w) sensor_id →
  metric_type = "temp" ∨ metric_type = "humidity" →
  ∃ v w', generate_random_walk_value random_source sensor_id metric_type w = (Ok v, w').
Proof.
  intros (d & Hd & [t Ht] & [h Hh]) [-> | ->].
  - destruct (generate_random_walk_value_step random_source w _ _ _ _ Hd Ht) as (c & _ & ->).
    eauto.
  - destruct (generate_random_walk_value_step random_source w _ _ _ _ Hd Hh) as (c & _ & ->).
    eauto.
Qed.

Lemma key_taken_app ts sid rows row :
  key_taken ts sid (rows ++ [row])
  = key_taken ts sid rows || ((timestamp row =? ts) && String.eqb (sensor_id row) sid).
Proof. unfold key_taken. rewrite existsb_app. simpl. by rewrite orb_false_r. Qed.


(** With no such row and every sensor listed once, the loop goes through. *)
Lemma insert_each_sensor_free sensors : ∀ ts conn w,
  NoDup sensors →
  (∀ s, s ∈ sensors → key_taken ts s (metrics conn) = false) →
  (∀ s, s ∈ sensors → has_walk_state (LAST_VALUES w) s) →
  ∃ conn' w', insert_each_sensor random_source sensors ts conn w = (Ok conn', w')
    ∧ ∀ s, has_walk_state (LAST_VALUES w) s → has_walk_state (LAST_VALUES w') s.
Proof.
  induction sensors as [|s0 rest IH]; intros ts conn w Hnd Hfree Hstate.
  { by exists conn, w. }
  rewrite insert_each_sensor_cons. apply NoDup_cons in Hnd as [Hnotin Hnd].
  destruct (generate_random_walk_value_ok s0 "temp" w) as (t & w1 & Ht);
    [apply Hstate; left|by left|].
  destruct (generate_random_walk_value_ok s0 "humidity" w1) as (h & w2 & Hh);
    [eapply generate_random_walk_value_keeps_state; [done|apply Hstate; left]|by right|].
  rewrite Ht, Hh, (Hfree s0) by left.
  destruct (IH ts (mkDb (metrics conn ++ [mkRow (next_rowid conn) ts s0 t h])
                        (next_rowid conn)) w2 Hnd) as (conn' & w' & Hok & Hkeep).
  - intros s Hs. simpl. rewrite key_taken_app, (Hfree s) by by right. simpl.
    destruct (String.eqb_spec s0 s) as [->|]; [done|]. by rewrite andb_false_r.
  - intros s Hs. do 2 (eapply generate_random_walk_value_keeps_state; [done|]).
    apply Hstate. by right.
  - exists conn', w'. split; [done|]. intros s Hs. apply Hkeep.
    by do 2 (eapply generate_random_walk_value_keeps_state; [done|]).
Qed.

End Sampler.

(** ** Retention *)

Lemma filter_all {A} (P : A → Prop) `{∀ x, Decision (P x)} (l : list A) :
  Forall P l → filter P l = l.
Proof.
  induction 1 as [|x l Hx Hl IH]; [done|]. by rewrite filter_cons_True, IH.
Qed.

Lemma filter_none {A} (P : A → Prop) `{∀ x, Decision (P x)} (l : list A) :
  Forall (λ x, ¬ P x) l → filter P l = [].
Proof.
  induction 1 as [|x l Hx Hl IH]; [done|]. by rewrite filter_cons_False.
Qed.

Lemma execute_delete_twice conn cutoff :
  execute_delete (fst (execute_delete conn cutoff)) cutoff
  = (fst (execute_delete conn cutoff), 0).
Proof.
  unfold execute_delete. simpl. f_equal.
  - f_equal. apply filter_all, Forall_forall. by intros r [? _]%list_elem_of_filter.
  - rewrite filter_none; [done|]. apply Forall_forall. by intros r [? _]%list_elem_of_filter.
Qed.

Section Retention.

Variable wall_clock : nat → Z.

(** The prune reads the clock once; then it replaces the table by the rows
    that are not older than the cutoff and reports the count, or, when it
    finds the file locked, prints the error and leaves the table. *)
Lemma clean_old_data_while_run write_locked minutes w :
  clean_old_data_while wall_clock write_locked minutes w
  = (Ok tt, after_prune write_locked (wall_clock (time_calls w) - minutes * 60) w).
Proof.
  unfold clean_old_data_while, after_prune, cursor_execute, int_time_time, bind, get_db,
    try_finally, try_except, close, commit, ret, raise, print.
  destruct write_locked; simpl; [done|].
  destruct (0 <? _); simpl; [done|]. by rewrite app_nil_r.
Qed.

Lemma clean_old_data_run minutes w :
  let cutoff := wall_clock (time_calls w) - minutes * 60 in
  let deleted := snd (execute_delete (database w) cutoff) in
  clean_old_data wall_clock minutes w
  = (Ok tt,
     mkWorld (LAST_VALUES w) (fst (execute_delete (database w) cutoff))
       (stdout w ++ if 0 <? deleted then [Cleaned_up deleted] else [])
       (random_calls w) (S (time_calls w))).
Proof. cbv zeta. unfold clean_old_data. by rewrite clean_old_data_while_run. Qed.

(** C5. For every contents of the table and every cutoff, the delete removes
    the rows with [timestamp < cutoff] and no others: the rows with
    [timestamp = cutoff] or later are kept as they are, in their order. This
    holds for the statement and for [clean_old_data], whose cutoff is the
    clock minus [minutes * 60]. *)
Theorem delete_older_than_cutoff conn w minutes cutoff :
  let conn' := fst (execute_delete conn cutoff) in
  let w' := snd (clean_old_data wall_clock minutes w) in
  let clock_cutoff := wall_clock (time_calls w) - minutes * 60 in
  (∀ r, r ∈ metrics conn' ↔ r ∈ metrics conn ∧ ¬ timestamp r < cutoff)
  ∧ (∀ r, r ∈ metrics conn → timestamp r < cutoff → r ∉ metrics conn')
  ∧ (∀ r, r ∈ metrics conn → timestamp r = cutoff → r ∈ metrics conn')
  ∧ metrics conn' = filter (λ r, cutoff ≤ timestamp r) (metrics conn)
  ∧ snd (execute_delete conn cutoff)
    = Z.of_nat (length (metrics conn)) - Z.of_nat (length (metrics conn'))
  ∧ fst (clean_old_data wall_clock minutes w) = Ok tt
  ∧ database w' = fst (execute_delete (database w) clock_cutoff)
  ∧ (∀ r, r ∈ metrics (database w')
          ↔ r ∈ metrics (database w) ∧ clock_cutoff ≤ timestamp r).
Proof.
  cbv zeta. rewrite clean_old_data_run. simpl.
  split; [intros r; rewrite list_elem_of_filter; tauto|].
  split; [intros r _ Hlt; rewrite list_elem_of_filter; tauto|].
  split; [intros r Hr Heq; rewrite list_elem_of_filter; split; [lia|done]|].
  split; [apply list_filter_iff; intros r; lia|].
  split.
  { pose proof (filter_app_complement (λ r, timestamp r < cutoff) (metrics conn)) as Hp.
    apply Permutation_length in Hp. rewrite length_app in Hp. lia. }
  split; [done|]. split; [done|].
  intros r. rewrite list_elem_of_filter. split; intros [? ?]; split; (done || lia).
Qed.

(** C9. Deleting twice with the same cutoff leaves the table as deleting
    once does, and the second delete removes no row: for the statement, and
    for two calls of [clean_old_data] that read the same clock value. *)
Theorem delete_older_than_idempotent conn cutoff w minutes :
  wall_clock (S (time_calls w)) = wall_clock (time_calls w) →
  let once := snd (clean_old_data wall_clock minutes w) in
  let twice := snd (clean_old_data wall_clock minutes once) in
  execute_delete (fst (execute_delete conn cutoff)) cutoff
  = (fst (execute_delete conn cutoff), 0)
  ∧ fst (clean_old_data wall_clock minutes once) = Ok tt
  ∧ database twice = database once
  ∧ stdout twice = stdout once.
Proof.
  intros Hclock. cbv zeta. split; [apply execute_delete_twice|].
  rewrite (clean_old_data_run minutes w). cbn [snd].
  rewrite clean_old_data_run. cbn [fst snd database stdout time_calls].
  rewrite Hclock, execute_delete_twice. cbn [fst snd].
  change (0 <? 0) with false. by rewrite app_nil_r.
Qed.

End Retention.

Lemma delete_older_than_idempotent_witness :
  let clock := λ _ : nat, 5000 in
  let w := set_database (mkDb [mkRow 1 1000 "THS No. 1" f_21_0 f_55_0;
                               mkRow 2 1400 "THS No. 1" f_21_0 f_55_0] 2) initial_world in
  let once := snd (clean_old_data clock 60 w) in
  let twice := snd (clean_old_data clock 60 once) in
  metrics (database once) = [mkRow 2 1400 "THS No. 1" f_21_0 f_55_0]
  ∧ database twice = database once
  ∧ stdout twice = stdout once.
Proof.
  split; [reflexivity|].
  apply (delete_older_than_idempotent (λ _, 5000) empty_db 0
           (set_database (mkDb [mkRow 1 1000 "THS No. 1" f_21_0 f_55_0;
                                mkRow 2 1400 "THS No. 1" f_21_0 f_55_0] 2) initial_world)
           60).
  reflexivity.
Defined.

(** ** One tick of the sampler *)

Section Tick.

Variable wall_clock : nat → Z.
Variable random_source : nat → nat.

Lemma after_inserts_frame outcome w1 :
  LAST_VALUES (after_inserts outcome w1) = LAST_VALUES w1
  ∧ random_calls (after_inserts outcome w1) = random_calls w1
  ∧ time_calls (after_inserts outcome w1) = time_calls w1.
Proof. destruct outcome as [?|e]; simpl; [done|]. by destruct (contains _ _). Qed.

Lemma after_prune_frame write_locked cutoff w :
  LAST_VALUES (after_prune write_locked cutoff w) = LAST_VALUES w
  ∧ random_calls (after_prune write_locked cutoff w) = random_calls w
  ∧ time_calls (after_prune write_locked cutoff w) = S (time_calls w).
Proof. unfold after_prune. by destruct write_locked. Qed.

Lemma generate_and_insert_metric_run time_index w outcome w1 :
  insert_each_sensor random_source SENSORS (wall_clock (time_calls w)) (database w)
    (tick_time w) = (outcome, w1) →
  generate_and_insert_metric wall_clock random_source time_index w
  = clean_old_data_while wall_clock (lock_after outcome) 60 (after_inserts outcome w1).
Proof.
  intros Hloop.
  unfold generate_and_insert_metric, int_time_time, get_db, try_finally, try_except, close.
  unfold bind at 1. unfold bind at 1. cbn [database tick_time].
  unfold bind at 1. unfold bind at 1. unfold bind at 1.
  change (database (tick_time w)) with (database w) in *.
  rewrite Hloop. destruct outcome as [conn|e]; simpl.
  - done.
  - unfold bind, ret, print. by destruct (contains _ _).
Qed.

(** The result of a tick, from the outcome of its loop over the sensors:
    the exceptions of the loop and of the prune are caught by the two [try]
    statements. *)
Lemma generate_and_insert_metric_ok time_index w :
  ∃ outcome w1,
    insert_each_sensor random_source SENSORS (wall_clock (time_calls w)) (database w)
      (tick_time w) = (outcome, w1)
    ∧ database w1 = database w ∧ stdout w1 = stdout w ∧ time_calls w1 = S (time_calls w)
    ∧ generate_and_insert_metric wall_clock random_source time_index w
      = (Ok tt,
         after_prune (lock_after outcome) (wall_clock (S (time_calls w)) - 3600)
           (after_inserts outcome w1)).
Proof.
  destruct (insert_each_sensor random_source SENSORS (wall_clock (time_calls w))
              (database w) (tick_time w)) as [outcome w1] eqn:Hloop.
  exists outcome, w1. split; [done|].
  destruct (insert_each_sensor_outcome random_source _ _ _ _ _ _ Hloop)
    as (Hdb & Hout & Htime & _).
  do 3 (split; [done|]).
  rewrite (generate_and_insert_metric_run time_index w _ _ Hloop).
  rewrite clean_old_data_while_run. change (60 * 60) with 3600.
  destruct (after_inserts_frame outcome w1) as (_ & _ & ->). by rewrite Htime.
Qed.

(** The table a tick leaves, by the outcome of the loop over the sensors:
    the rows of the loop after the prune, the table after the prune when the
    loop failed before an INSERT was rejected, and the table as it was when
    an INSERT was rejected, since the prune then finds the file locked. *)
Lemma generate_and_insert_metric_database time_index w outcome w1 :
  insert_each_sensor random_source SENSORS (wall_clock (time_calls w)) (database w)
    (tick_time w) = (outcome, w1) →
  database (snd (generate_and_insert_metric wall_clock random_source time_index w))
  = match outcome with
    | Ok conn => fst (execute_delete conn (wall_clock (S (time_calls w)) - 3600))
    | Raise e =>
        if keeps_write_lock e
        then database w
        else fst (execute_delete (database w) (wall_clock (S (time_calls w)) - 3600))
    end.
Proof.
  intros Hloop.
  destruct (generate_and_insert_metric_ok time_index w)
    as (outcome' & w1' & Hloop' & Hdb & _ & _ & ->).
  rewrite Hloop in Hloop'. injection Hloop' as <- <-. cbn [snd].
  destruct outcome as [conn|e]; simpl.
  - done.
  - unfold after_prune.
    destruct (keeps_write_lock e), (contains _ _); simpl; by rewrite Hdb.
Qed.

Lemma key_taken_false ts sid rows :
  Forall (λ r, timestamp r ≠ ts) rows → key_taken ts sid rows = false.
Proof.
  unfold key_taken. induction 1 as [|r rows Hr _ IH]; [done|]. simpl.
  rewrite IH, orb_false_r. apply andb_false_iff. left. by apply Z.eqb_neq.
Qed.


(** A tick whose timestamp is new to the table commits one row per sensor. *)
Lemma generate_and_insert_metric_fresh time_index w :
  (∀ s, s ∈ SENSORS → has_walk_state (LAST_VALUES w) s) →
  Forall (λ r, timestamp r ≠ wall_clock (time_calls w)) (metrics (database w)) →
  ∃ rows w1,
    sensor_id <$> rows = SENSORS
    ∧ Forall (λ r, timestamp r = wall_clock (time_calls w)) rows
    ∧ generate_and_insert_metric wall_clock random_source time_index w
      = clean_old_data wall_clock 60 w1
    ∧ metrics (database w1) = metrics (database w) ++ rows
    ∧ stdout w1 = stdout w ++ [Inserted_metrics]
    ∧ time_calls w1 = S (time_calls w)
    ∧ ∀ s, s ∈ SENSORS → has_walk_state (LAST_VALUES w1) s.
Proof.
  intros Hstate Hnew.
  destruct (insert_each_sensor_free random_source SENSORS (wall_clock (time_calls w))
              (database w) (tick_time w)) as (conn' & w1 & Hloop & Hkeep).
  { by apply (bool_decide_unpack _). }
  { intros s _. by apply key_taken_false. }
  { done. }
  destruct (insert_each_sensor_outcome random_source _ _ _ _ _ _ Hloop)
    as (Hdb & Hout & Htime & Hrows).
  destruct (Hrows conn' eq_refl) as (rows & Hm & Hsid & Hts).
  exists rows, (after_inserts (Ok conn') w1).
  split; [done|]. split; [done|].
  split; [by rewrite (generate_and_insert_metric_run time_index w _ _ Hloop)|].
  simpl. split; [done|]. split; [by rewrite Hout|]. split; [done|].
  intros s Hs. apply Hkeep, Hstate, Hs.
Qed.

(** The same tick when the prune that follows finds nothing to delete. *)
Lemma generate_and_insert_metric_appends time_index w :
  let ts := wall_clock (time_calls w) in
  let cutoff := wall_clock (S (time_calls w)) - 3600 in
  (∀ s, s ∈ SENSORS → has_walk_state (LAST_VALUES w) s) →
  Forall (λ r, timestamp r ≠ ts ∧ cutoff ≤ timestamp r) (metrics (database w)) →
  cutoff ≤ ts →
  ∃ w', generate_and_insert_metric wall_clock random_source time_index w = (Ok tt, w')
    ∧ key_of <$> metrics (database w')
      = (key_of <$> metrics (database w)) ++ ((λ s, (ts, s)) <$> SENSORS)
    ∧ time_calls w' = S (S (time_calls w))
    ∧ ∀ s, s ∈ SENSORS → has_walk_state (LAST_VALUES w') s.
Proof.
  intros ts cutoff Hstate Hrows Hts.
  destruct (generate_and_insert_metric_fresh time_index w Hstate)
    as (rows & w1 & Hsid & Hrts & Hrun & Hm & Hout & Htime & Hkeep).
  { eapply Forall_impl; [done|]. by intros r [? _]. }
  rewrite Hrun, clean_old_data_run. eexists. split; [done|]. cbn [database LAST_VALUES time_calls].
  rewrite Htime. split; [|done].
  unfold execute_delete. cbn [fst metrics]. change (60 * 60) with 3600.
  rewrite filter_all.
  - rewrite Hm, fmap_app. f_equal. rewrite <-Hsid, <-list_fmap_compose.
    apply Forall_fmap_ext_1. eapply Forall_impl; [done|].
    intros r Hr. unfold key_of. simpl. by rewrite Hr.
  - rewrite Hm. apply Forall_app. split.
    + eapply Forall_impl; [done|]. intros r [_ ?]. fold cutoff. lia.
    + eapply Forall_impl; [done|]. intros r ->. fold cutoff ts. lia.
Qed.

(** Every row a tick leaves in the table was there before or carries the
    one timestamp read at the start of the tick. *)
Lemma generate_and_insert_metric_rows time_index w r :
  r ∈ metrics (database (snd (generate_and_insert_metric wall_clock random_source
                                time_index w))) →
  r ∈ metrics (database w) ∨ timestamp r = wall_clock (time_calls w).
Proof.
  destruct (insert_each_sensor random_source SENSORS (wall_clock (time_calls w))
              (database w) (tick_time w)) as [outcome w1] eqn:Hloop.
  rewrite (generate_and_insert_metric_database time_index w _ _ Hloop).
  destruct (insert_each_sensor_outcome random_source _ _ _ _ _ _ Hloop)
    as (Hdb & _ & _ & Hrows).
  destruct outcome as [conn'|e].
  - unfold execute_delete. cbn [fst metrics].
    intros [_ Hr]%list_elem_of_filter. revert Hr.
    destruct (Hrows conn' eq_refl) as (rows & -> & _ & Hts).
    intros [?|Hr]%elem_of_app; [by left|right].
    by apply (proj1 (Forall_forall _ _) Hts).
  - destruct (keeps_write_lock e); [by left|].
    unfold execute_delete. cbn [fst metrics].
    intros [_ Hr]%list_elem_of_filter. by left.
Qed.

(** C8. In every tick the timestamp is read once and given to every sensor:
    a row that a tick adds carries that timestamp. Three ticks at three
    different seconds, started on an empty table and all within the retention
    window, leave nine rows: three timestamps, each with one row for each of
    the three sensors. *)
Theorem ticks_share_one_timestamp w :
  let t1 := wall_clock (time_calls w) in
  let c1 := wall_clock (1 + time_calls w) in
  let t2 := wall_clock (2 + time_calls w) in
  let c2 := wall_clock (3 + time_calls w) in
  let t3 := wall_clock (4 + time_calls w) in
  let c3 := wall_clock (5 + time_calls w) in
  metrics (database w) = [] →
  (∀ s, s ∈ SENSORS → has_walk_state (LAST_VALUES w) s) →
  t1 ≠ t2 ∧ t1 ≠ t3 ∧ t2 ≠ t3 →
  c1 - 3600 ≤ t1 ∧ c2 - 3600 ≤ Z.min t1 t2 ∧ c3 - 3600 ≤ Z.min t1 (Z.min t2 t3) →
  let rows := metrics (database (snd (run wall_clock random_source 3 w))) in
  (∀ w0 time_index r,
     r ∈ metrics (database (snd (generate_and_insert_metric wall_clock random_source
                                   time_index w0))) →
     r ∈ metrics (database w0) ∨ timestamp r = wall_clock (time_calls w0))
  ∧ fst (run wall_clock random_source 3 w) = Ok tt
  ∧ key_of <$> rows
    = [(t1, "THS No. 1"); (t1, "THS No. 2"); (t1, "THS No. 3");
       (t2, "THS No. 1"); (t2, "THS No. 2"); (t2, "THS No. 3");
       (t3, "THS No. 1"); (t3, "THS No. 2"); (t3, "THS No. 3")]
  ∧ length rows = 9%nat
  ∧ NoDup [t1; t2; t3]
  ∧ (∀ r, r ∈ rows → timestamp r ∈ [t1; t2; t3])
  ∧ (∀ t, t ∈ [t1; t2; t3] →
       sensor_id <$> filter (λ r, timestamp r = t) rows = SENSORS).
Proof.
  cbv zeta. simpl Nat.add.
  set (t1 := wall_clock (time_calls w)). set (c1 := wall_clock (S (time_calls w))).
  set (t2 := wall_clock (S (S (time_calls w)))).
  set (c2 := wall_clock (S (S (S (time_calls w))))).
  set (t3 := wall_clock (S (S (S (S (time_calls w)))))).
  set (c3 := wall_clock (S (S (S (S (S (time_calls w))))))).
  intros Hempty Hstate (H12 & H13 & H23) (Hc1 & Hc2 & Hc3).
  set (rows := metrics _).
  split; [intros w0 time_index r; apply generate_and_insert_metric_rows|].
  assert (∃ w', run wall_clock random_source 3 w = (Ok tt, w')
            ∧ key_of <$> metrics (database w')
              = [(t1, "THS No. 1"); (t1, "THS No. 2"); (t1, "THS No. 3");
                 (t2, "THS No. 1"); (t2, "THS No. 2"); (t2, "THS No. 3");
                 (t3, "THS No. 1"); (t3, "THS No. 2"); (t3, "THS No. 3")])
    as (w' & Hrun & Hkeys).
  { unfold run, print. unfold bind at 1 2 3.
    set (wa := add_stdout _ (add_stdout _ (add_stdout _ w))).
    destruct (generate_and_insert_metric_appends 0 wa)
      as (w1 & Hrun1 & Hk1 & Htc1 & Hst1); [done|by subst wa; simpl; rewrite Hempty| |].
    { subst wa. simpl. fold t1 c1. lia. }
    destruct (generate_and_insert_metric_appends (0 + 1) w1)
      as (w2 & Hrun2 & Hk2 & Htc2 & Hst2); [done| | |].
    { apply Forall_forall. intros r Hr.
      apply (list_elem_of_fmap_2 key_of) in Hr. rewrite Hk1 in Hr.
      subst wa. simpl in Hr, Htc1. rewrite Hempty in Hr. simpl in Hr.
      rewrite Htc1. fold t1 t2 c2 in Hr |- *.
      assert (timestamp r = t1); [|lia].
      unfold key_of in Hr.
      repeat (apply elem_of_cons in Hr as [[= ? ?]|Hr]); [done..|].
      by apply elem_of_nil in Hr. }
    { rewrite Htc1. subst wa. simpl. fold t2 c2. lia. }
    destruct (generate_and_insert_metric_appends (0 + 1 + 1) w2)
      as (w3 & Hrun3 & Hk3 & Htc3 & Hst3); [done| | |].
    { apply Forall_forall. intros r Hr.
      apply (list_elem_of_fmap_2 key_of) in Hr. rewrite Hk2, Hk1 in Hr.
      subst wa. simpl in Hr, Htc1. rewrite Hempty in Hr. simpl in Hr.
      rewrite Htc2, Htc1 in *. fold t1 t2 t3 c3 in Hr |- *.
      assert (timestamp r = t1 ∨ timestamp r = t2); [|lia].
      unfold key_of in Hr.
      repeat (apply elem_of_cons in Hr as [[= ? ?]|Hr]); [auto..|].
      by apply elem_of_nil in Hr. }
    { rewrite Htc2, Htc1. subst wa. simpl. fold t3 c3. lia. }
    exists (add_stdout (Text (newline +:+ "Stopped.")) w3). split.
    - simpl. unfold bind at 1. unfold bind at 1. rewrite Hrun1.
      unfold bind at 1. rewrite Hrun2. unfold bind at 1. rewrite Hrun3. done.
    - simpl. rewrite Hk3, Hk2, Hk1, Htc2, Htc1. subst wa. simpl. by rewrite Hempty. }
  subst rows. rewrite Hrun. cbn [fst snd]. split; [done|]. split; [done|].
  revert Hkeys. generalize (metrics (database w')). clear Hrun. intros rows Hkeys.
  do 9 (destruct rows as [|? rows]; [by simplify_eq/=|]).
  destruct rows; [|by simplify_eq/=].
  unfold key_of in Hkeys. simplify_eq/=.
  split; [done|].
  split.
  { repeat (apply NoDup_cons; split;
            [rewrite ?elem_of_cons, elem_of_nil; intuition congruence|]).
    apply NoDup_nil_2. }
  split.
  { intros r' Hr'.
    repeat (apply elem_of_cons in Hr' as [->|Hr']); [..|by apply elem_of_nil in Hr'].
    all: rewrite !elem_of_cons; auto. }
  intros t Ht.
  repeat (apply elem_of_cons in Ht as [->|Ht]); [..|by apply elem_of_nil in Ht].
  all: rewrite !filter_cons, filter_nil; repeat (case_decide; try congruence).
  all: unfold SENSORS; simpl; congruence.
Qed.





End Tick.


(** An exception that is not a rejected INSERT is printed, and the prune
    runs: with no walk state for the first sensor the tick prints the
    KeyError and stores nothing. *)
Example tick_prints_other_errors :
  let w' := snd (generate_and_insert_metric (λ _, 1000) (λ _, 4%nat) 0
                   (set_LAST_VALUES ∅ initial_world)) in
  stdout w' = [Error_inserting "'THS No. 1'"] ∧ metrics (database w') = [].
Proof. split; reflexivity. Qed.



Lemma ticks_share_one_timestamp_witness :
  length (metrics (database (snd (run (λ n, 1000 + Z.of_nat n) (λ n, n) 3 initial_world))))
  = 9%nat.
Proof.
  destruct (ticks_share_one_timestamp (λ n, 1000 + Z.of_nat n) (λ n, n) initial_world)
    as (_ & _ & _ & H & _).
  - reflexivity.
  - intros s' Hs'. unfold SENSORS in Hs'.
    repeat (apply elem_of_cons in Hs' as [->|Hs']);
      [..|by apply elem_of_nil in Hs'];
      (eexists; split; [reflexivity|split; eexists; reflexivity]).
  - simpl. lia.
  - simpl. lia.
  - exact H.
Defined.

(** ** The window query *)

Lemma string_compare_refl s : String.compare s s = Eq.
Proof.
  pose proof (String.compare_antisym s s) as H.
  by destruct (String.compare s s).
Qed.

Lemma string_compare_lt_trans a b c :
  String.compare a b = Lt → String.compare b c = Lt → String.compare a c = Lt.
Proof.
  intros Hab Hbc.
  assert (String.le a c) as Hac.
  { trans b; unfold String.le, String.leb; [by rewrite Hab|by rewrite Hbc]. }
  unfold String.le, String.leb in Hac.
  destruct (String.compare a c) eqn:Hc; [|done..].
  apply String.compare_eq_iff in Hc as ->.
  rewrite String.compare_antisym, Hbc in Hab. discriminate.
Qed.

Lemma order_by_iff r1 r2 :
  Is_true (order_by_sensor_id_timestamp r1 r2) ↔ by_sensor_then_timestamp r1 r2.
Proof.
  unfold order_by_sensor_id_timestamp, by_sensor_then_timestamp, String.ltb.
  destruct (String.compare (sensor_id r1) (sensor_id r2)) eqn:Hc.
  - apply String.compare_eq_iff in Hc. rewrite Is_true_true, Z.leb_le.
    split; [by right|]. by intros [?|[_ ?]].
  - split; [by left|done].
  - split; [done|]. intros [?|[Heq _]]; [done|].
    rewrite Heq, string_compare_refl in Hc. discriminate.
Qed.

#[local] Instance order_by_total :
  Total (λ r1 r2, Is_true (order_by_sensor_id_timestamp r1 r2)).
Proof.
  intros r1 r2. unfold order_by_sensor_id_timestamp.
  rewrite (String.compare_antisym (sensor_id r2) (sensor_id r1)).
  destruct (String.compare (sensor_id r1) (sensor_id r2)); simpl; auto.
  destruct (Z.leb_spec (timestamp r1) (timestamp r2)),
    (Z.leb_spec (timestamp r2) (timestamp r1)); simpl; auto. lia.
Qed.

#[local] Instance order_by_transitive :
  Transitive (λ r1 r2, Is_true (order_by_sensor_id_timestamp r1 r2)).
Proof.
  intros r1 r2 r3. unfold order_by_sensor_id_timestamp.
  destruct (String.compare (sensor_id r1) (sensor_id r2)) eqn:H12; [| |done].
  - apply String.compare_eq_iff in H12 as ->.
    destruct (String.compare (sensor_id r2) (sensor_id r3)); [|done..].
    rewrite !Is_true_true, !Z.leb_le. lia.
  - destruct (String.compare (sensor_id r2) (sensor_id r3)) eqn:H23; [| |done].
    + apply String.compare_eq_iff in H23 as <-. by rewrite H12.
    + by rewrite (string_compare_lt_trans _ _ _ H12 H23).
Qed.

Lemma StronglySorted_weaken {A} (R1 R2 : relation A) l :
  (∀ x y, R1 x y → R2 x y) → StronglySorted R1 l → StronglySorted R2 l.
Proof.
  intros HR. induction 1 as [|x l _ IH Hx]; constructor; [done|].
  eapply Forall_impl; [done|]. auto.
Qed.

(** The SELECT returns the rows after the cutoff, each once, in the order
    by sensor_id and then by timestamp. *)
Lemma execute_select_spec conn cutoff :
  execute_select conn cutoff ≡ₚ filter (λ r, cutoff < timestamp r) (metrics conn)
  ∧ (∀ r, r ∈ execute_select conn cutoff ↔ r ∈ metrics conn ∧ cutoff < timestamp r)
  ∧ StronglySorted by_sensor_then_timestamp (execute_select conn cutoff).
Proof.
  unfold execute_select. split; [apply merge_sort_Permutation|]. split.
  - intros r. rewrite merge_sort_Permutation, list_elem_of_filter. tauto.
  - eapply StronglySorted_weaken; [|by apply StronglySorted_merge_sort; apply _].
    intros r1 r2. apply order_by_iff.
Qed.

Section Query.

Variable wall_clock : nat → Z.

Lemma get_metrics_last_n_minutes_run minutes w :
  get_metrics_last_n_minutes wall_clock minutes w
  = (Ok (dict_of_row <$> execute_select (database w)
                            (wall_clock (time_calls w) - minutes * 60)),
     tick_time w).
Proof. reflexivity. Qed.

(** C4. For every table and every time of the call, the window query returns
    exactly the readings with [timestamp > now - window], the window being
    [minutes * 60] seconds, ordered by sensor_id and then by timestamp
    ascending; with the window of 3600 seconds no returned row has
    [timestamp <= now - 3600]. The table is not changed. *)
Theorem query_window_returns_recent_rows_in_order w minutes :
  let now := wall_clock (time_calls w) in
  let rows := execute_select (database w) (now - minutes * 60) in
  let rows60 := execute_select (database w) (now - 3600) in
  get_metrics_last_n_minutes wall_clock minutes w = (Ok (dict_of_row <$> rows), tick_time w)
  ∧ rows ≡ₚ filter (λ r, now - minutes * 60 < timestamp r) (metrics (database w))
  ∧ (∀ r, r ∈ rows ↔ r ∈ metrics (database w) ∧ now - minutes * 60 < timestamp r)
  ∧ StronglySorted by_sensor_then_timestamp rows
  ∧ fst (get_metrics_last_n_minutes wall_clock 60 w) = Ok (dict_of_row <$> rows60)
  ∧ (∀ r, r ∈ rows60 → ¬ timestamp r ≤ now - 3600)
  ∧ database (snd (get_metrics_last_n_minutes wall_clock minutes w)) = database w.
Proof.
  cbv zeta. rewrite !get_metrics_last_n_minutes_run.
  destruct (execute_select_spec (database w) (wall_clock (time_calls w) - minutes * 60))
    as (Hperm & Hin & Hsorted).
  do 4 (split; [done|]). split; [done|]. split; [|done].
  intros r [_ Hr]%execute_select_spec. lia.
Qed.

(** The encoder accepts the items of the rows exactly when every reading is
    finite. *)
Lemma json_compliant_rows rows :
  forallb json_compliant (dict_of_row <$> rows) = true ↔ finite_readings rows.
Proof.
  unfold finite_readings. induction rows as [|r rows IH].
  - split; [constructor|done].
  - rewrite fmap_cons, Forall_cons, <-IH. cbn [forallb]. rewrite andb_true_iff.
    cbn [dict_of_row json_compliant forallb snd]. rewrite andb_true_r.
    cbn [andb]. by rewrite andb_true_iff.
Qed.

(** Readings in the ranges of the sampler are finite. *)
Lemma rows_in_range_finite rows : rows_in_range rows → finite_readings rows.
Proof.
  intros H. eapply Forall_impl; [exact H|]. intros r (Ht1 & Ht2 & Hh1 & Hh2). split.
  - apply (in_range_finite "temp"). unfold in_range. simpl. by rewrite Ht1, Ht2.
  - apply (in_range_finite "humidity"). unfold in_range. simpl. by rewrite Hh1, Hh2.
Qed.

(** The handler of [/api/metrics] and the encoding of what it returns. *)
Lemma get_metrics_response w :
  let window := execute_select (database w) (wall_clock (time_calls w) - 3600) in
  try_except
    (content <- get_metrics wall_clock;;
     if json_compliant content
     then ret (mkResponse 200 (JSON content))
     else raise (ValueError "Out of range float values are not JSON compliant"))
    (λ _, ret (mkResponse 500 (PlainText "Internal Server Error"))) w
  = (Ok (if forallb json_compliant (dict_of_row <$> window)
         then mkResponse 200
                (JSON (Dict [("timestamp", Int (wall_clock (S (time_calls w))));
                             ("data", List (dict_of_row <$> window))]))
         else mkResponse 500 (PlainText "Internal Server Error")),
     tick_time (tick_time w)).
Proof.
  cbv zeta. unfold try_except, bind at 1, get_metrics, bind at 1.
  rewrite get_metrics_last_n_minutes_run.
  unfold bind at 1, int_time_time, ret at 1. cbn [time_calls tick_time].
  cbn [json_compliant forallb snd andb]. rewrite andb_true_r.
  by destruct (forallb json_compliant _).
Qed.

Lemma http_get_api_metrics_run w :
  let window := execute_select (database w) (wall_clock (time_calls w) - 3600) in
  http_get wall_clock "/api/metrics" w
  = (Ok (if forallb json_compliant (dict_of_row <$> window)
         then mkResponse 200
                (JSON (Dict [("timestamp", Int (wall_clock (S (time_calls w))));
                             ("data", List (dict_of_row <$> window))]))
         else mkResponse 500 (PlainText "Internal Server Error")),
     tick_time (tick_time w)).
Proof.
  cbv zeta. unfold http_get.
  change (List.find _ (app wall_clock))
    with (Some ("/api/metrics", Handler (get_metrics wall_clock))).
  cbv iota beta. apply get_metrics_response.
Qed.

(** C6, as the code has it. The route is [/api/metrics]: a GET of that path
    is answered 200 with a JSON object that holds the server time in integer
    seconds and, under "data", one item with timestamp, sensor_id, temperature
    and humidity for each row of the last 3600 seconds, ordered by sensor_id
    and then by timestamp ascending, provided every reading in that window is
    a finite number, as the readings in the ranges of the sampler are; a
    reading that is infinite cannot be encoded and the answer is 500. With no
    row in the window the body is the timestamp and an empty "data" list.
    The table is not changed. *)
Theorem api_metrics_responds_200 w :
  let now := wall_clock (time_calls w) in
  let window := execute_select (database w) (now - 3600) in
  (finite_readings window →
   fst (http_get wall_clock "/api/metrics" w)
   = Ok (mkResponse 200
           (JSON (Dict [("timestamp", Int (wall_clock (S (time_calls w))));
                        ("data", List (dict_of_row <$> window))]))))
  ∧ (rows_in_range (metrics (database w)) → finite_readings window)
  ∧ (¬ finite_readings window →
     fst (http_get wall_clock "/api/metrics" w)
     = Ok (mkResponse 500 (PlainText "Internal Server Error")))
  ∧ (∀ item, item ∈ dict_of_row <$> window →
       ∃ ts sid temp hum,
         item = Dict [("timestamp", Int ts); ("sensor_id", Str sid);
                      ("temperature", Float temp); ("humidity", Float hum)])
  ∧ (∀ r, r ∈ window ↔ r ∈ metrics (database w) ∧ now - 3600 < timestamp r)
  ∧ StronglySorted by_sensor_then_timestamp window
  ∧ ((∀ r, r ∈ metrics (database w) → timestamp r ≤ now - 3600) →
     fst (http_get wall_clock "/api/metrics" w)
     = Ok (mkResponse 200
             (JSON (Dict [("timestamp", Int (wall_clock (S (time_calls w))));
                          ("data", List [])]))))
  ∧ database (snd (http_get wall_clock "/api/metrics" w)) = database w.
Proof.
  cbv zeta. rewrite http_get_api_metrics_run. cbn [fst snd].
  destruct (execute_select_spec (database w) (wall_clock (time_calls w) - 3600))
    as (Hperm & Hin & Hsorted).
  split.
  { intros Hfinite%json_compliant_rows. by rewrite Hfinite. }
  split.
  { intros Hrange%rows_in_range_finite. unfold finite_readings in *.
    apply Forall_forall. intros r [Hr _]%Hin.
    by apply (proj1 (Forall_forall _ _) Hrange). }
  split.
  { intros Hnot. destruct (forallb json_compliant _) eqn:Hf; [|done].
    by apply json_compliant_rows in Hf. }
  split.
  { intros item (r & -> & _)%list_elem_of_fmap. unfold dict_of_row. eauto 6. }
  do 2 (split; [done|]). split; [|done].
  intros Hold.
  destruct (execute_select (database w) (wall_clock (time_calls w) - 3600)) as [|r rows];
    [done|].
  destruct (proj1 (Hin r)) as [Hr Hlt]; [left|]. specialize (Hold r Hr). lia.
Qed.

End Query.

(** Readings of one sensor two hours and thirty seconds before the call:
    the window of one hour returns the second one only. *)
Example query_window_one_of_two :
  fst (get_metrics_last_n_minutes (λ _, 10000) 60
         (set_database (mkDb [mkRow 1 (10000 - 7200) "THS No. 1" f_21_0 f_55_0;
                              mkRow 2 (10000 - 30) "THS No. 1" f_22_0 f_58_0] 2)
            initial_world))
  = Ok [dict_of_row (mkRow 2 9970 "THS No. 1" f_22_0 f_58_0)].
Proof. reflexivity. Qed.

(** C6 as stated fails: no route is registered for [/metrics]. *)
Lemma get_metrics_path_not_found :
  ∃ response,
    fst (http_get (λ _, 1000) "/metrics" initial_world) = Ok response
    ∧ status_code response = 404
    ∧ status_code response ≠ 200.
Proof. eexists. split; [reflexivity|]. by split. Qed.

(** A stored reading that is infinite: the encoder refuses it and the
    request is answered 500. *)
Example api_metrics_stored_infinity :
  fst (http_get (λ _, 1000) "/api/metrics"
         (set_database (mkDb [mkRow 1 1000 "THS No. 1" (S754_infinity false) f_55_0] 1)
            initial_world))
  = Ok (mkResponse 500 (PlainText "Internal Server Error")).
Proof. reflexivity. Qed.

Lemma api_metrics_responds_200_witness :
  fst (http_get (λ _, 1000) "/api/metrics" world_with_row_of_sensor_2)
  = Ok (mkResponse 200
          (JSON (Dict [("timestamp", Int 1000);
                       ("data", List [dict_of_row (mkRow 1 1000 "THS No. 2" f_22_0 f_58_0)])]))).
Proof.
  destruct (api_metrics_responds_200 (λ _, 1000) world_with_row_of_sensor_2) as (H & _).
  apply H. apply Forall_singleton. by split.
Defined.

(** ** More on the value generator *)

Lemma SFcompare_Eq_finite x s m e :
  SFcompare x (S754_finite s m e) = Some Eq → x = S754_finite s m e.
Proof.
  destruct x as [[]|[]| |[] mx ex], s; simpl; try discriminate.
  all: fold_pos_compare; destruct (Z.compare_spec ex e); try discriminate.
  all: destruct (Pos.compare_spec mx m); try discriminate.
  all: intros _; by subst.
Qed.

Lemma range_of_finite metric_type :
  ∃ m1 e1 m2 e2, range_of metric_type = (S754_finite false m1 e1, S754_finite false m2 e2).
Proof. unfold range_of. destruct (String.eqb metric_type "temp"); by do 4 eexists. Qed.

Lemma py_min_id s m e v :
  fle v (S754_finite s m e) = true → py_min (S754_finite s m e) v = v.
Proof.
  unfold py_min, fle, flt, SFleb, SFltb.
  destruct (SFcompare v (S754_finite s m e)) as [[]|] eqn:Hc; try discriminate; [|done].
  by apply SFcompare_Eq_finite in Hc.
Qed.

Lemma py_max_id s m e v :
  fle (S754_finite s m e) v = true → py_max (S754_finite s m e) v = v.
Proof.
  unfold py_max, fle, flt, SFleb, SFltb. rewrite (SFcompare_antisym v).
  destruct (SFcompare v (S754_finite s m e)) as [[]|] eqn:Hc; try discriminate; [|done].
  by apply SFcompare_Eq_finite in Hc.
Qed.

(** A value that is in the range passes the clamp as it is. *)
Lemma clamp_id metric_type v :
  in_range metric_type v = true → clamp metric_type v = v.
Proof.
  destruct (range_of_finite metric_type) as (m1 & e1 & m2 & e2 & Hr).
  unfold in_range, clamp. rewrite Hr. simpl fst; simpl snd.
  intros [Hlo Hhi]%andb_prop. by rewrite py_min_id, py_max_id.
Qed.

Section GeneratorEdges.

Variable random_source : nat → nat.

(** X1. When [LAST_VALUES] has no entry for the sensor, or the sensor has
    none for the metric, the generator raises [KeyError] with the missing
    key before it draws: the walk state and the random source are as
    before. *)
Theorem generator_missing_key_raises w sensor_id metric_type :
  LAST_VALUES w !! sensor_id ≫= (.!! metric_type) = None →
  ∃ key,
    generate_random_walk_value random_source sensor_id metric_type w = (Raise (KeyError key), w)
    ∧ (LAST_VALUES w !! sensor_id = None → key = sensor_id)
    ∧ (is_Some (LAST_VALUES w !! sensor_id) → key = metric_type).
Proof.
  unfold generate_random_walk_value, bind, get_LAST_VALUES, getitem.
  destruct (LAST_VALUES w !! sensor_id) as [d|] eqn:Hd; simpl.
  - intros ->. exists metric_type. split; [done|]. by split.
  - intros _. exists sensor_id. split; [done|]. split; [done|]. by intros [? ?].
Qed.

(** X2. When the previous value plus the perturbation lies in the range of
    the metric, bounds included, the generator returns that sum unchanged:
    the clamp only acts outside the range. *)
Theorem generator_returns_sum_in_range w sensor_id metric_type of_sensor last_value change :
  LAST_VALUES w !! sensor_id = Some of_sensor →
  of_sensor !! metric_type = Some last_value →
  CHANGES !! (random_source (random_calls w) `mod` 5)%nat = Some change →
  in_range metric_type (fadd last_value change) = true →
  fst (generate_random_walk_value random_source sensor_id metric_type w)
  = Ok (fadd last_value change).
Proof.
  intros Hs Hm Hc Hin.
  destruct (generate_random_walk_value_step random_source w _ _ _ _ Hs Hm) as (c & Hc' & ->).
  assert (c = change) as -> by congruence. simpl. by rewrite clamp_id.
Qed.

End GeneratorEdges.

Lemma generator_missing_key_raises_witness :
  generate_random_walk_value (λ _, 0%nat) "THS No. 4" "temp" initial_world
  = (Raise (KeyError "THS No. 4"), initial_world).
Proof.
  destruct (generator_missing_key_raises (λ _, 0%nat) initial_world "THS No. 4" "temp")
    as (key & Hrun & Hkey & _); [reflexivity|].
  by rewrite Hrun, Hkey.
Defined.

Lemma generator_returns_sum_in_range_witness :
  fst (generate_random_walk_value (λ _, 4%nat) "THS No. 1" "temp" initial_world)
  = Ok (fadd f_21_0 f_0_1).
Proof.
  apply (generator_returns_sum_in_range (λ _, 4%nat) initial_world "THS No. 1" "temp"
           (sensor_values f_21_0 f_55_0) f_21_0 f_0_1); reflexivity.
Defined.

(** ** Invariants of the sampler *)

Lemma key_taken_spec ts sid rows :
  key_taken ts sid rows = false ↔ (ts, sid) ∉ key_of <$> rows.
Proof.
  unfold key_taken. induction rows as [|r rows IH]; simpl.
  - split; [|done]. intros _ []%elem_of_nil.
  - rewrite orb_false_iff, IH, not_elem_of_cons.
    destruct (Z.eqb_spec (timestamp r) ts) as [Ht|Ht];
      destruct (String.eqb_spec (sensor_id r) sid) as [Hs|Hs]; simpl;
      split; intros [? ?]; split; try done; unfold key_of in *; congruence.
Qed.

Lemma foldr_max_ge (zs : list Z) z : z ∈ zs → z ≤ foldr Z.max 0 zs.
Proof.
  induction zs as [|z' zs IH]; [by intros []%elem_of_nil|].
  intros [->|Hz]%elem_of_cons; simpl; [lia|]. specialize (IH Hz). lia.
Qed.

Lemma next_rowid_above conn :
  sqlite_sequence conn < next_rowid conn
  ∧ Forall (λ r, id r < next_rowid conn) (metrics conn).
Proof.
  unfold next_rowid. split; [lia|]. apply Forall_forall. intros r Hr.
  pose proof (foldr_max_ge (id <$> metrics conn) (id r) (list_elem_of_fmap_2 _ _ _ Hr)). lia.
Qed.

(** What one INSERT that goes through does to the table. *)
Lemma execute_insert_ok conn ts sid temp hum w conn' w' :
  execute_insert conn ts sid temp hum w = (Ok conn', w') →
  w' = w
  ∧ key_taken ts sid (metrics conn) = false
  ∧ conn' = mkDb (metrics conn ++ [mkRow (next_rowid conn) ts sid temp hum]) (next_rowid conn).
Proof.
  unfold execute_insert.
  destruct (is_nan temp); [done|]. destruct (is_nan hum); [done|].
  destruct (key_taken ts sid (metrics conn)); [done|].
  by intros [= <- <-].
Qed.

Lemma execute_insert_keeps conn ts sid temp hum w conn' w' :
  execute_insert conn ts sid temp hum w = (Ok conn', w') →
  (unique_keys (metrics conn) → unique_keys (metrics conn'))
  ∧ (rowids_in_sequence conn → rowids_in_sequence conn')
  ∧ sqlite_sequence conn < sqlite_sequence conn'
  ∧ ∀ r, r ∈ metrics conn' → r ∈ metrics conn ∨ sqlite_sequence conn < id r.
Proof.
  intros (_ & Hfree & ->)%execute_insert_ok. simpl.
  destruct (next_rowid_above conn) as [Hseq Hids].
  split; [|split; [|split; [lia|]]].
  3: { intros r [?|Hr%list_elem_of_singleton]%elem_of_app; [by left|]. subst r. by right. }
  - unfold unique_keys. rewrite fmap_app. intros Hnd. apply NoDup_app.
    split; [done|]. split; [|apply NoDup_singleton].
    intros k Hk ->%list_elem_of_singleton. by apply key_taken_spec in Hfree.
  - intros [Hnd Hle]. split; simpl.
    + rewrite fmap_app. apply NoDup_app. split; [done|]. split; [|apply NoDup_singleton].
      intros i (r & -> & Hr)%list_elem_of_fmap Hi%list_elem_of_singleton. simpl in Hi.
      apply (proj1 (Forall_forall _ _) Hids) in Hr. lia.
    + apply Forall_app. split; [|by apply Forall_singleton].
      eapply Forall_impl; [exact Hids|]. intros r ?. simpl in *. lia.
Qed.

(** What the DELETE keeps. *)
Lemma execute_delete_keeps conn cutoff :
  (unique_keys (metrics conn) → unique_keys (metrics (fst (execute_delete conn cutoff))))
  ∧ (rows_in_range (metrics conn) → rows_in_range (metrics (fst (execute_delete conn cutoff))))
  ∧ (rowids_in_sequence conn → rowids_in_sequence (fst (execute_delete conn cutoff)))
  ∧ sqlite_sequence (fst (execute_delete conn cutoff)) = sqlite_sequence conn
  ∧ ∀ r, r ∈ metrics (fst (execute_delete conn cutoff)) → r ∈ metrics conn.
Proof.
  unfold execute_delete. cbn [fst metrics sqlite_sequence].
  split; [|split; [|split; [|split; [done|]]]].
  - intros H. unfold unique_keys.
    eapply sublist_NoDup; [exact H|]. apply fmap_sublist, sublist_filter.
  - intros H. unfold rows_in_range. apply Forall_forall.
    intros r [_ Hin]%list_elem_of_filter. by apply (proj1 (Forall_forall _ _) H).
  - intros [Hnd Hle]. split; simpl.
    + eapply sublist_NoDup; [exact Hnd|]. apply fmap_sublist, sublist_filter.
    + apply Forall_forall. intros r [_ Hin]%list_elem_of_filter.
      by apply (proj1 (Forall_forall _ _) Hle).
  - by intros r [_ ?]%list_elem_of_filter.
Qed.

Section SamplerInvariants.

Variable wall_clock : nat → Z.
Variable random_source : nat → nat.

Lemma generate_random_walk_value_raise_keeps sensor_id metric_type w e w' :
  generate_random_walk_value random_source sensor_id metric_type w = (Raise e, w') →
  w' = w.
Proof.
  intros H.
  destruct (LAST_VALUES w !! sensor_id) as [d0|] eqn:Hd0.
  2: { unfold generate_random_walk_value, bind, get_LAST_VALUES, getitem in H.
       rewrite Hd0 in H. by injection H as <- <-. }
  destruct (d0 !! metric_type) as [v0|] eqn:Hv0.
  2: { unfold generate_random_walk_value, bind, get_LAST_VALUES, getitem in H.
       rewrite Hd0 in H. unfold ret at 1 in H. rewrite Hv0 in H.
       by injection H as <- <-. }
  destruct (generate_random_walk_value_step random_source w _ _ _ _ Hd0 Hv0)
    as (c & _ & Hgen).
  by rewrite Hgen in H.
Qed.

Lemma in_range_bounds_temp v :
  in_range "temp" v = true → fle TEMP_MIN v = true ∧ fle v TEMP_MAX = true.
Proof. unfold in_range. simpl. by intros ?%andb_prop. Qed.

Lemma in_range_bounds_humidity v :
  in_range "humidity" v = true → fle HUMIDITY_MIN v = true ∧ fle v HUMIDITY_MAX = true.
Proof. unfold in_range. simpl. by intros ?%andb_prop. Qed.

(** What the loop over the sensors keeps, whatever its outcome, and what a
    connection that comes out of it keeps. *)
Lemma insert_each_sensor_keeps sensors : ∀ ts conn w r w',
  insert_each_sensor random_source sensors ts conn w = (r, w') →
  (walk_state_in_range (LAST_VALUES w) → walk_state_in_range (LAST_VALUES w'))
  ∧ (∀ s, has_walk_state (LAST_VALUES w) s → has_walk_state (LAST_VALUES w') s)
  ∧ ∀ conn', r = Ok conn' →
      (unique_keys (metrics conn) → unique_keys (metrics conn'))
      ∧ (rows_in_range (metrics conn) → rows_in_range (metrics conn'))
      ∧ (rowids_in_sequence conn → rowids_in_sequence conn')
      ∧ sqlite_sequence conn ≤ sqlite_sequence conn'
      ∧ ∀ row, row ∈ metrics conn' → row ∈ metrics conn ∨ sqlite_sequence conn < id row.
Proof.
  induction sensors as [|s rest IH]; intros ts conn w r w'.
  { intros [= <- <-]. do 2 (split; [done|]). intros conn' [= <-].
    do 3 (split; [done|]). split; [done|]. by left. }
  rewrite insert_each_sensor_cons.
  destruct (generate_random_walk_value random_source s "temp" w) as [[t|e] w1] eqn:Ht.
  2: { apply generate_random_walk_value_raise_keeps in Ht as ->.
       intros [= <- <-]. by do 2 (split; [done|]). }
  destruct (generate_random_walk_value random_source s "humidity" w1) as [[h|e] w2] eqn:Hh.
  2: { apply generate_random_walk_value_raise_keeps in Hh as ->. intros [= <- <-].
       split; [by apply (generate_random_walk_value_in_range _ _ _ _ _ _ Ht)|].
       split; [|done]. intros s' H.
       by eapply generate_random_walk_value_keeps_state. }
  assert ((walk_state_in_range (LAST_VALUES w) → walk_state_in_range (LAST_VALUES w2))
          ∧ (∀ s', has_walk_state (LAST_VALUES w) s' → has_walk_state (LAST_VALUES w2) s'))
    as [Hr2 Hs2].
  { split.
    - intros H. apply (generate_random_walk_value_in_range _ _ _ _ _ _ Hh).
      by apply (generate_random_walk_value_in_range _ _ _ _ _ _ Ht).
    - intros s' H. eapply generate_random_walk_value_keeps_state; [exact Hh|].
      by eapply generate_random_walk_value_keeps_state. }
  destruct (key_taken ts s (metrics conn)) eqn:Hfree.
  { intros [= <- <-]. by do 2 (split; [done|]). }
  set (conn1 := mkDb (metrics conn ++ [mkRow (next_rowid conn) ts s t h]) (next_rowid conn)).
  assert (execute_insert conn ts s t h w2 = (Ok conn1, w2)) as Hins.
  { rewrite execute_insert_numbers, Hfree; [done|..].
    - by apply (in_range_not_nan "temp"), (generate_random_walk_value_in_range _ _ _ _ _ _ Ht).
    - by apply (in_range_not_nan "humidity"),
         (generate_random_walk_value_in_range _ _ _ _ _ _ Hh). }
  pose proof (execute_insert_keeps _ _ _ _ _ _ _ _ Hins) as (Hk1 & Hi1 & Hq1 & Hnew1).
  intros Hrest. apply IH in Hrest as (Hr3 & Hs3 & Hok).
  split; [auto|]. split; [auto|].
  intros conn' ->. destruct (Hok conn' eq_refl) as (Hk & Hrng & Hi & Hq & Hnew).
  split; [auto|]. split; [|split; [auto|split; [lia|]]].
  - intros Hrows. apply Hrng. subst conn1. simpl. apply Forall_app. split; [done|].
    apply Forall_singleton. simpl.
    destruct (in_range_bounds_temp t) as [? ?];
      [by apply (generate_random_walk_value_in_range _ _ _ _ _ _ Ht)|].
    destruct (in_range_bounds_humidity h) as [? ?];
      [by apply (generate_random_walk_value_in_range _ _ _ _ _ _ Hh)|].
    done.
  - intros row [Hrow|Hrow]%Hnew.
    + apply Hnew1 in Hrow as [?|?]; [by left|by right].
    + right. lia.
Qed.

(** With the walk state of every sensor in place the loop can only fail on
    the UNIQUE constraint. *)
Lemma insert_each_sensor_raises_unique sensors : ∀ ts conn w e w',
  (∀ s, s ∈ sensors → has_walk_state (LAST_VALUES w) s) →
  insert_each_sensor random_source sensors ts conn w = (Raise e, w') →
  e = IntegrityError UNIQUE_FAILED.
Proof.
  induction sensors as [|s0 rest IH]; intros ts conn w e w' Hstate; [done|].
  rewrite insert_each_sensor_cons.
  destruct (generate_random_walk_value_ok random_source s0 "temp" w) as (t & w1 & Ht);
    [apply Hstate; left|by left|].
  destruct (generate_random_walk_value_ok random_source s0 "humidity" w1) as (h & w2 & Hh);
    [eapply generate_random_walk_value_keeps_state; [done|apply Hstate; left]|by right|].
  rewrite Ht, Hh.
  destruct (key_taken ts s0 (metrics conn)); [by intros [= <- _]|].
  apply IH.
  intros s' Hs'. do 2 (eapply generate_random_walk_value_keeps_state; [done|]).
  apply Hstate. by right.
Qed.

Lemma run_loop_keeps (P : World → Prop) :
  (∀ time_index w,
     P w → P (snd (generate_and_insert_metric wall_clock random_source time_index w))) →
  ∀ ticks time_index w,
    fst (run_loop wall_clock random_source ticks time_index w) = Ok tt
    ∧ (P w → P (snd (run_loop wall_clock random_source ticks time_index w))).
Proof.
  intros Htick. induction ticks as [|ticks IH]; intros time_index w; simpl; [done|].
  unfold bind. specialize (Htick time_index w).
  destruct (generate_and_insert_metric_ok wall_clock random_source time_index w)
    as (? & ? & _ & _ & _ & _ & Hrun).
  rewrite Hrun in Htick |- *. simpl in Htick.
  destruct (IH (time_index + 1) (snd (generate_and_insert_metric wall_clock random_source
                                        time_index w))) as [Hok Hkeep].
  rewrite Hrun in Hok, Hkeep. simpl in Hok, Hkeep. split; [done|]. auto.
Qed.

Lemma run_unfold ticks w :
  run wall_clock random_source ticks w
  = match run_loop wall_clock random_source ticks 0
            (add_stdout (Text ("Press Ctrl+C to stop" +:+ newline))
               (add_stdout (Text "Sensors: THS No. 1, THS No. 2, THS No. 3")
                  (add_stdout (Text "Starting continuous data generator...") w))) with
    | (Ok _, w') => (Ok tt, add_stdout (Text (newline +:+ "Stopped.")) w')
    | (Raise e, w') => (Raise e, w')
    end.
Proof. reflexivity. Qed.

Lemma run_keeps (P : World → Prop) :
  (∀ time_index w,
     P w → P (snd (generate_and_insert_metric wall_clock random_source time_index w))) →
  (∀ s w, P w → P (add_stdout (Text s) w)) →
  ∀ ticks w,
    fst (run wall_clock random_source ticks w) = Ok tt
    ∧ (P w → P (snd (run wall_clock random_source ticks w))).
Proof.
  intros Htick Hprint ticks w. rewrite run_unfold.
  set (wa := add_stdout _ (add_stdout _ (add_stdout _ w))).
  destruct (run_loop_keeps P Htick ticks 0 wa) as [Hok Hkeep].
  destruct (run_loop wall_clock random_source ticks 0 wa) as [[[]|e] w'];
    [|discriminate]. simpl in *. split; [done|].
  intros HP. apply Hprint, Hkeep. subst wa. by do 3 apply Hprint.
Qed.

(** X4. A tick stores the readings of all sensors or of none. Either the
    loop over the sensors goes through: then the tick adds one row per
    sensor, in the order of [SENSORS], all with the timestamp of the tick,
    and its prune removes the rows older than 3600 seconds before the clock
    value the prune read. Or the loop fails and nothing is added: after an
    INSERT that was rejected the table is left exactly as it was, the prune
    finding the file locked, and after another failure the prune runs on the
    table as it was. *)
Theorem tick_stores_all_sensors_or_none w time_index :
  let ts := wall_clock (time_calls w) in
  let cutoff := wall_clock (S (time_calls w)) - 3600 in
  let w' := snd (generate_and_insert_metric wall_clock random_source time_index w) in
  ∃ outcome w1,
    insert_each_sensor random_source SENSORS ts (database w) (tick_time w) = (outcome, w1)
    ∧ match outcome with
      | Ok _ =>
          ∃ added,
            sensor_id <$> added = SENSORS
            ∧ Forall (λ r, timestamp r = ts) added
            ∧ metrics (database w')
              = filter (λ r, cutoff ≤ timestamp r) (metrics (database w) ++ added)
      | Raise (IntegrityError _) => database w' = database w
      | Raise _ =>
          metrics (database w') = filter (λ r, cutoff ≤ timestamp r) (metrics (database w))
      end.
Proof.
  cbv zeta.
  destruct (insert_each_sensor random_source SENSORS (wall_clock (time_calls w))
              (database w) (tick_time w)) as [outcome w1] eqn:Hloop.
  exists outcome, w1. split; [done|].
  rewrite (generate_and_insert_metric_database _ _ time_index w _ _ Hloop).
  destruct (insert_each_sensor_outcome random_source _ _ _ _ _ _ Hloop) as (_ & _ & _ & Hrows).
  destruct outcome as [conn'|e].
  - destruct (Hrows conn' eq_refl) as (rows & Hm & Hs & Hts).
    exists rows. do 2 (split; [done|]).
    unfold execute_delete. cbn [fst metrics]. rewrite Hm.
    apply list_filter_iff. intros r. lia.
  - destruct e; simpl; try done.
    all: unfold execute_delete; cbn [fst metrics]; apply list_filter_iff; intros r; lia.
Qed.

Lemma tick_keeps_store time_index w :
  let db := database w in
  let db' := database (snd (generate_and_insert_metric wall_clock random_source
                              time_index w)) in
  (unique_keys (metrics db) → unique_keys (metrics db'))
  ∧ (rows_in_range (metrics db) → rows_in_range (metrics db'))
  ∧ (rowids_in_sequence db → rowids_in_sequence db')
  ∧ sqlite_sequence db ≤ sqlite_sequence db'
  ∧ ∀ r, r ∈ metrics db' → r ∈ metrics db ∨ sqlite_sequence db < id r.
Proof.
  cbv zeta.
  destruct (insert_each_sensor random_source SENSORS (wall_clock (time_calls w))
              (database w) (tick_time w)) as [outcome w1] eqn:Hloop.
  rewrite (generate_and_insert_metric_database _ _ time_index w _ _ Hloop).
  destruct (insert_each_sensor_keeps _ _ _ _ _ _ Hloop) as (_ & _ & Hok).
  destruct outcome as [conn'|e].
  - destruct (Hok conn' eq_refl) as (Hk & Hr & Hi & Hq & Hnew).
    destruct (execute_delete_keeps conn' (wall_clock (S (time_calls w)) - 3600))
      as (Hk' & Hr' & Hi' & Hq' & Hsub).
    rewrite Hq'.
    split; [by intros H; apply Hk', Hk|]. split; [by intros H; apply Hr', Hr|].
    split; [by intros H; apply Hi', Hi|]. split; [done|].
    intros r Hin%Hsub. by apply Hnew.
  - destruct (keeps_write_lock e).
    { do 3 (split; [done|]). split; [lia|]. by left. }
    destruct (execute_delete_keeps (database w) (wall_clock (S (time_calls w)) - 3600))
      as (Hk' & Hr' & Hi' & Hq' & Hsub).
    rewrite Hq'. do 3 (split; [done|]). split; [lia|].
    intros r Hin%Hsub. by left.
Qed.

(** X5. The sampler keeps the UNIQUE constraint: when no two rows of the
    table share (timestamp, sensor_id), the same holds after a tick and after
    any number of ticks of [run]. *)
Theorem sampler_keeps_unique_keys w time_index ticks :
  unique_keys (metrics (database w)) →
  unique_keys (metrics (database (snd (generate_and_insert_metric wall_clock random_source
                                         time_index w))))
  ∧ unique_keys (metrics (database (snd (run wall_clock random_source ticks w)))).
Proof.
  intros H. split; [by apply tick_keeps_store|].
  apply (run_keeps (λ w, unique_keys (metrics (database w)))); [|done..].
  intros ti w0. apply tick_keeps_store.
Qed.

(** X6. The sampler stores clamped values only: when every row of the
    table has its temperature in [16.0, 26.0] and its humidity in
    [40.0, 70.0], so has every row after a tick and after any number of
    ticks of [run], whatever the walk state was. *)
Theorem sampler_keeps_rows_in_range w time_index ticks :
  rows_in_range (metrics (database w)) →
  rows_in_range (metrics (database (snd (generate_and_insert_metric wall_clock random_source
                                          time_index w))))
  ∧ rows_in_range (metrics (database (snd (run wall_clock random_source ticks w)))).
Proof.
  intros H. split; [by apply tick_keeps_store|].
  apply (run_keeps (λ w, rows_in_range (metrics (database w)))); [|done..].
  intros ti w0. apply tick_keeps_store.
Qed.

(** X7. Rowids are never reused: when the rowids of the table are pairwise
    different and not above the AUTOINCREMENT counter, this still holds after
    any number of ticks, the counter has not gone down, and every row of the
    table that was not there before has a rowid above the counter of before,
    that is, above every rowid given out until then, pruned rows included. *)
Theorem sampler_keeps_rowids_in_sequence w ticks :
  rowids_in_sequence (database w) →
  let w' := snd (run wall_clock random_source ticks w) in
  rowids_in_sequence (database w')
  ∧ sqlite_sequence (database w) ≤ sqlite_sequence (database w')
  ∧ ∀ r, r ∈ metrics (database w') →
         r ∈ metrics (database w) ∨ sqlite_sequence (database w) < id r.
Proof.
  intros H.
  apply (run_keeps (λ w0, rowids_in_sequence (database w0)
                          ∧ sqlite_sequence (database w) ≤ sqlite_sequence (database w0)
                          ∧ ∀ r, r ∈ metrics (database w0) →
                                 r ∈ metrics (database w)
                                 ∨ sqlite_sequence (database w) < id r));
    [| |split; [done|split; [lia|by left]]].
  - intros ti w0 (Hi & Hq & Hnew).
    destruct (tick_keeps_store ti w0) as (_ & _ & Hi' & Hq' & Hnew').
    cbv zeta in Hq', Hnew'. split; [auto|]. split; [lia|].
    intros r [Hr|Hr]%Hnew'; [auto|]. right. lia.
  - done.
Qed.

(** X8. With both walk values of every sensor in place the generator finds
    its keys in every tick: after any number of ticks the walk state is still
    complete, and it is in range if it was. *)
Theorem sampler_keeps_walk_state w ticks :
  (∀ s, s ∈ SENSORS → has_walk_state (LAST_VALUES w) s) →
  let w' := snd (run wall_clock random_source ticks w) in
  (∀ s, s ∈ SENSORS → has_walk_state (LAST_VALUES w') s)
  ∧ (walk_state_in_range (LAST_VALUES w) → walk_state_in_range (LAST_VALUES w')).
Proof.
  intros Hstate.
  apply (run_keeps (λ w0, (∀ s, s ∈ SENSORS → has_walk_state (LAST_VALUES w0) s)
                          ∧ (walk_state_in_range (LAST_VALUES w)
                             → walk_state_in_range (LAST_VALUES w0))));
    [| |by split].
  - intros ti w0 (Hs0 & Hr0).
    destruct (generate_and_insert_metric_ok wall_clock random_source ti w0)
      as (outcome & w1 & Hloop & _ & _ & _ & ->).
    destruct (insert_each_sensor_keeps _ _ _ _ _ _ Hloop) as (Hr1 & Hs1 & _).
    cbn [snd].
    rewrite (proj1 (after_prune_frame _ _ _)), (proj1 (after_inserts_frame _ _)).
    split; [by intros s Hs; apply Hs1, Hs0|]. by intros H; apply Hr1, Hr0.
  - done.
Qed.

End SamplerInvariants.

Lemma initial_walk_state s : s ∈ SENSORS → has_walk_state LAST_VALUES_initial s.
Proof.
  intros Hs. unfold SENSORS in Hs.
  repeat (apply elem_of_cons in Hs as [->|Hs]); [..|by apply elem_of_nil in Hs];
    (eexists; split; [reflexivity|split; eexists; reflexivity]).
Defined.

Lemma sampler_keeps_unique_keys_witness :
  unique_keys (metrics (database (snd (run (λ _, 1000) (λ _, 4%nat) 2
                                        world_with_row_of_sensor_2)))).
Proof.
  apply (sampler_keeps_unique_keys (λ _, 1000) (λ _, 4%nat) world_with_row_of_sensor_2 0 2).
  apply NoDup_singleton.
Defined.

Lemma sampler_keeps_rows_in_range_witness :
  rows_in_range (metrics (database (snd (run (λ n, 2000 + Z.of_nat n) (λ n, n) 2
                                          world_with_row_of_sensor_2))))
  ∧ length (metrics (database (snd (run (λ n, 2000 + Z.of_nat n) (λ n, n) 2
                                      world_with_row_of_sensor_2)))) = 7%nat.
Proof.
  split; [|reflexivity].
  apply (sampler_keeps_rows_in_range (λ n, 2000 + Z.of_nat n) (λ n, n)
           world_with_row_of_sensor_2 0 2).
  apply Forall_singleton. repeat split.
Defined.

Lemma sampler_keeps_rowids_in_sequence_witness :
  let w := set_database (mkDb [mkRow 5 0 "THS No. 1" f_21_0 f_55_0] 5) initial_world in
  let w' := snd (run (λ n, 5000 + Z.of_nat n) (λ n, n) 2 w) in
  rowids_in_sequence (database w')
  ∧ id <$> metrics (database w') = [6; 7; 8; 9; 10; 11]
  ∧ sqlite_sequence (database w') = 11.
Proof.
  split; [|split; reflexivity].
  apply (sampler_keeps_rowids_in_sequence (λ n, 5000 + Z.of_nat n) (λ n, n)
           (set_database (mkDb [mkRow 5 0 "THS No. 1" f_21_0 f_55_0] 5) initial_world) 2).
  split; [apply NoDup_singleton|]. apply Forall_singleton. simpl. lia.
Defined.

Lemma sampler_keeps_walk_state_witness :
  has_walk_state
    (LAST_VALUES (snd (run (λ n, 1000 + Z.of_nat n) (λ n, n) 2 initial_world))) "THS No. 3"
  ∧ length (metrics (database (snd (run (λ n, 1000 + Z.of_nat n) (λ n, n) 2
                                      initial_world)))) = 6%nat.
Proof.
  split; [|reflexivity].
  destruct (sampler_keeps_walk_state (λ n, 1000 + Z.of_nat n) (λ n, n) initial_world 2)
    as (H & _).
  - apply initial_walk_state.
  - apply H. by apply (bool_decide_unpack _).
Defined.

(** ** Prune and query together *)

Lemma NoDup_fmap_eq {A B} (f : A → B) (l : list A) x y :
  NoDup (f <$> l) → x ∈ l → y ∈ l → f x = f y → x = y.
Proof.
  induction l as [|z l IH]; [by intros _ []%elem_of_nil|].
  rewrite fmap_cons, NoDup_cons. intros [Hz Hnd] Hx Hy Hf.
  apply elem_of_cons in Hx as [->|Hx]; apply elem_of_cons in Hy as [->|Hy]; auto.
  - destruct Hz. rewrite Hf. by apply list_elem_of_fmap_2.
  - destruct Hz. rewrite <-Hf. by apply list_elem_of_fmap_2.
Qed.

Lemma string_ltb_irrefl s : String.ltb s s = false.
Proof. unfold String.ltb. by rewrite string_compare_refl. Qed.

Lemma by_sensor_then_timestamp_antisym r1 r2 :
  by_sensor_then_timestamp r1 r2 → by_sensor_then_timestamp r2 r1 → key_of r1 = key_of r2.
Proof.
  unfold by_sensor_then_timestamp, key_of, String.ltb.
  rewrite (String.compare_antisym (sensor_id r2) (sensor_id r1)).
  intros [H1|[Hs1 Ht1]] [H2|[Hs2 Ht2]].
  - by destruct (String.compare (sensor_id r1) (sensor_id r2)).
  - rewrite Hs2, string_compare_refl in H1. discriminate.
  - rewrite Hs1, string_compare_refl in H2. discriminate.
  - f_equal; [lia|done].
Qed.

Lemma execute_delete_filter_filter conn c1 c2 :
  metrics (fst (execute_delete (fst (execute_delete conn c1)) c2))
  = metrics (fst (execute_delete conn (Z.max c1 c2))).
Proof.
  unfold execute_delete. simpl. rewrite list_filter_filter.
  apply list_filter_iff. intros r. lia.
Qed.

(** X9. Two prunes in a row amount to one prune with the later cutoff: the
    table is the same, the two counts of deleted rows add up to the count of
    the single prune, and the order of the two prunes does not matter. *)
Theorem successive_prunes_compose conn c1 c2 :
  let once := execute_delete conn c1 in
  let twice := execute_delete (fst once) c2 in
  fst twice = fst (execute_delete conn (Z.max c1 c2))
  ∧ snd once + snd twice = snd (execute_delete conn (Z.max c1 c2))
  ∧ fst twice = fst (execute_delete (fst (execute_delete conn c2)) c1).
Proof.
  cbv zeta. split; [|split].
  - pose proof (execute_delete_filter_filter conn c1 c2) as H.
    unfold execute_delete in *. simpl in *. by rewrite H.
  - unfold execute_delete. cbn [fst snd metrics].
    rewrite <-Nat2Z.inj_add. f_equal.
    induction (metrics conn) as [|r rows IH]; [done|].
    rewrite !filter_cons.
    destruct (decide (timestamp r < c1)), (decide (timestamp r < Z.max c1 c2));
      simpl; try lia.
    + destruct (decide (¬ timestamp r < c1)); [done|]. lia.
    + destruct (decide (¬ timestamp r < c1)); [|done]. rewrite filter_cons.
      destruct (decide (timestamp r < c2)); simpl; lia.
    + destruct (decide (¬ timestamp r < c1)); [|done]. rewrite filter_cons.
      destruct (decide (timestamp r < c2)); simpl; lia.
  - pose proof (execute_delete_filter_filter conn c1 c2) as H1.
    pose proof (execute_delete_filter_filter conn c2 c1) as H2.
    unfold execute_delete in *. simpl in *. rewrite H1, H2. by rewrite Z.max_comm.
Qed.

Lemma execute_select_after_delete conn c_delete c_select :
  c_delete ≤ c_select + 1 →
  execute_select (fst (execute_delete conn c_delete)) c_select = execute_select conn c_select.
Proof.
  intros Hc. unfold execute_select, execute_delete. simpl. f_equal.
  rewrite list_filter_filter. apply list_filter_iff. intros r. lia.
Qed.

Section PruneAndQuery.

Variable wall_clock : nat → Z.
Variable random_source : nat → nat.

(** The rows a loop that goes through has added hold clamped values. *)
Lemma insert_each_sensor_added sensors : ∀ ts conn w conn' w',
  insert_each_sensor random_source sensors ts conn w = (Ok conn', w') →
  ∃ rows, metrics conn' = metrics conn ++ rows
    ∧ sensor_id <$> rows = sensors
    ∧ Forall (λ r, timestamp r = ts) rows
    ∧ rows_in_range rows.
Proof.
  induction sensors as [|s rest IH]; intros ts conn w conn' w'; simpl.
  { intros [= <- <-]. exists []. rewrite app_nil_r. do 3 (split; [done|]).
    apply Forall_nil_2. }
  unfold bind at 1.
  destruct (generate_random_walk_value random_source s "temp" w) as [[t|e] w1] eqn:Ht;
    [|done].
  unfold bind at 1.
  destruct (generate_random_walk_value random_source s "humidity" w1) as [[h|e] w2] eqn:Hh;
    [|done].
  unfold bind at 1.
  destruct (execute_insert conn ts s t h w2) as [[conn1|e] w3] eqn:Hins; [|done].
  apply execute_insert_ok in Hins as (-> & _ & ->).
  intros (rows & Hm & Hs & Hts & Hrange)%IH. simpl in Hm.
  exists (mkRow (next_rowid conn) ts s t h :: rows).
  rewrite Hm, <-app_assoc. split; [done|]. split; [by rewrite fmap_cons, Hs|].
  split; [by constructor|]. constructor; [|done]. simpl.
  destruct (in_range_bounds_temp t) as [? ?];
    [by apply (generate_random_walk_value_in_range random_source _ _ _ _ _ Ht)|].
  destruct (in_range_bounds_humidity h) as [? ?];
    [by apply (generate_random_walk_value_in_range random_source _ _ _ _ _ Hh)|].
  done.
Qed.

(** X10. The prune never takes a row away from the 60-minute window of a
    later query: when the clock has not gone back by more than a second
    between the prune and the query, the query returns what it would have
    returned without the prune. *)
Theorem prune_keeps_query_window w :
  wall_clock (time_calls w) ≤ wall_clock (S (time_calls w)) + 1 →
  fst (get_metrics_last_n_minutes wall_clock 60 (snd (clean_old_data wall_clock 60 w)))
  = fst (get_metrics_last_n_minutes wall_clock 60 (tick_time w)).
Proof.
  intros Hclock. rewrite clean_old_data_run, !get_metrics_last_n_minutes_run.
  cbn [fst snd database time_calls tick_time]. f_equal. f_equal.
  apply execute_select_after_delete. lia.
Qed.

(** X11. Under the UNIQUE constraint the answer of the window query is
    determined by its order clause: every list that holds the rows after the
    cutoff once each and is ordered by sensor_id, then timestamp, is the list
    the query returns. *)
Theorem query_result_is_determined conn cutoff rows :
  unique_keys (metrics conn) →
  rows ≡ₚ filter (λ r, cutoff < timestamp r) (metrics conn) →
  StronglySorted by_sensor_then_timestamp rows →
  rows = execute_select conn cutoff.
Proof.
  intros Hunique Hperm Hsorted.
  destruct (execute_select_spec conn cutoff) as (Hperm' & Hin & Hsorted').
  apply (StronglySorted_unique_strong by_sensor_then_timestamp); [|done..|by rewrite Hperm'].
  intros r1 r2 Hr1 Hr2 H12 H21.
  apply (NoDup_fmap_eq key_of (metrics conn)); [done| | |].
  - rewrite Hperm in Hr1. by apply list_elem_of_filter in Hr1 as [_ ?].
  - by apply Hin in Hr2 as [? _].
  - by apply by_sensor_then_timestamp_antisym.
Qed.

(** X12. What a tick writes, the next query reads: after a tick whose
    timestamp is new to the table and inside the window of its own prune, a
    query whose window reaches back to that timestamp returns, for every
    sensor, an item with that timestamp and sensor and with values inside
    the ranges. *)
Theorem tick_is_visible_to_query w time_index :
  let ts := wall_clock (time_calls w) in
  let w' := snd (generate_and_insert_metric wall_clock random_source time_index w) in
  (∀ s, s ∈ SENSORS → has_walk_state (LAST_VALUES w) s) →
  Forall (λ r, timestamp r ≠ ts) (metrics (database w)) →
  wall_clock (S (time_calls w)) - 3600 ≤ ts →
  wall_clock (S (S (time_calls w))) - 3600 < ts →
  ∃ data,
    fst (get_metrics_last_n_minutes wall_clock 60 w') = Ok data
    ∧ ∀ s, s ∈ SENSORS →
        ∃ temp hum,
          Dict [("timestamp", Int ts); ("sensor_id", Str s);
                ("temperature", Float temp); ("humidity", Float hum)] ∈ data
          ∧ fle TEMP_MIN temp = true ∧ fle temp TEMP_MAX = true
          ∧ fle HUMIDITY_MIN hum = true ∧ fle hum HUMIDITY_MAX = true.
Proof.
  intros ts w' Hstate Hnew Hprune Hquery. subst w'.
  destruct (generate_and_insert_metric_ok wall_clock random_source time_index w)
    as (outcome & w1 & Hloop & Hdb & _ & Htime & Hrun).
  destruct (insert_each_sensor_free random_source SENSORS ts (database w) (tick_time w))
    as (conn' & w1' & Hloop' & _).
  { by apply (bool_decide_unpack _). }
  { intros s _. by apply key_taken_false. }
  { done. }
  fold ts in Hloop. rewrite Hloop' in Hloop. injection Hloop as <- <-.
  destruct (insert_each_sensor_added _ _ _ _ _ _ Hloop') as (rows & Hm & Hsid & Hts & Hin).
  rewrite Hrun. cbn [snd lock_after after_prune].
  rewrite get_metrics_last_n_minutes_run.
  cbn [fst database time_calls after_inserts add_stdout set_database]. rewrite Htime.
  eexists. split; [done|]. intros s Hs.
  rewrite <-Hsid in Hs. apply list_elem_of_fmap in Hs as (r & -> & Hr).
  assert (timestamp r = ts) as Hrts by by apply (proj1 (Forall_forall _ _) Hts).
  exists (temperature r), (humidity r). split.
  - rewrite <-Hrts. apply (list_elem_of_fmap_2 dict_of_row), execute_select_spec.
    split; [|change (60 * 60) with 3600; lia].
    unfold execute_delete. cbn [fst metrics after_inserts database set_database add_stdout].
    apply list_elem_of_filter. split; [lia|]. rewrite Hm. apply elem_of_app. by right.
  - by apply (proj1 (Forall_forall _ _) Hin).
Qed.

End PruneAndQuery.

Lemma prune_keeps_query_window_witness :
  let w := set_database (mkDb [mkRow 1 1000 "THS No. 1" f_21_0 f_55_0;
                               mkRow 2 4900 "THS No. 1" f_22_0 f_58_0] 2) initial_world in
  fst (get_metrics_last_n_minutes (λ _, 5000) 60 (snd (clean_old_data (λ _, 5000) 60 w)))
  = fst (get_metrics_last_n_minutes (λ _, 5000) 60 (tick_time w))
  ∧ fst (get_metrics_last_n_minutes (λ _, 5000) 60 (tick_time w))
    = Ok [dict_of_row (mkRow 2 4900 "THS No. 1" f_22_0 f_58_0)]
  ∧ metrics (database (snd (clean_old_data (λ _, 5000) 60 w)))
    = [mkRow 2 4900 "THS No. 1" f_22_0 f_58_0].
Proof.
  split; [|split; reflexivity].
  apply (prune_keeps_query_window (λ _, 5000)
           (set_database (mkDb [mkRow 1 1000 "THS No. 1" f_21_0 f_55_0;
                                mkRow 2 4900 "THS No. 1" f_22_0 f_58_0] 2) initial_world)).
  simpl. lia.
Defined.

Lemma query_result_is_determined_witness :
  [mkRow 3 900 "THS No. 1" f_21_0 f_55_0;
   mkRow 2 1000 "THS No. 1" f_21_0 f_55_0;
   mkRow 1 1000 "THS No. 2" f_22_0 f_58_0]
  = execute_select (mkDb [mkRow 1 1000 "THS No. 2" f_22_0 f_58_0;
                          mkRow 2 1000 "THS No. 1" f_21_0 f_55_0;
                          mkRow 3 900 "THS No. 1" f_21_0 f_55_0;
                          mkRow 4 0 "THS No. 3" f_20_5 f_52_0] 4) 0.
Proof.
  apply (query_result_is_determined
           (mkDb [mkRow 1 1000 "THS No. 2" f_22_0 f_58_0;
                  mkRow 2 1000 "THS No. 1" f_21_0 f_55_0;
                  mkRow 3 900 "THS No. 1" f_21_0 f_55_0;
                  mkRow 4 0 "THS No. 3" f_20_5 f_52_0] 4) 0).
  - by apply (bool_decide_unpack _).
  - symmetry.
    apply (Permutation_rev [mkRow 1 1000 "THS No. 2" f_22_0 f_58_0;
                            mkRow 2 1000 "THS No. 1" f_21_0 f_55_0;
                            mkRow 3 900 "THS No. 1" f_21_0 f_55_0]).
  - repeat (apply SSorted_cons || apply SSorted_nil || apply Forall_cons_2
            || apply Forall_nil_2).
    all: (by left) || (right; split; [reflexivity|simpl; lia]).
Defined.

Lemma tick_is_visible_to_query_witness :
  ∃ data,
    fst (get_metrics_last_n_minutes (λ _, 1000) 60
           (snd (generate_and_insert_metric (λ _, 1000) (λ _, 4%nat) 0 initial_world)))
    = Ok data
    ∧ length data = 3%nat.
Proof.
  destruct (tick_is_visible_to_query (λ _, 1000) (λ _, 4%nat) initial_world 0)
    as (data & Hdata & _).
  - apply initial_walk_state.
  - apply Forall_nil_2.
  - simpl. lia.
  - simpl. lia.
  - exists data. split; [exact Hdata|].
    vm_compute in Hdata. injection Hdata as <-. reflexivity.
Defined.

(** ** The API and the rest of the program *)

Section Api.

Variable wall_clock : nat → Z.

(** X13. The API only reads: a GET of any path is answered and leaves the
    table, the walk state, the output and the random source as they were.
    [/health] answers 200 with [{"status": "ok"}] without a look at the clock
    or the table; [/api/metrics] reads the clock twice and answers 200 or
    500. *)
Theorem api_only_reads path w :
  let w' := snd (http_get wall_clock path w) in
  (∃ response, fst (http_get wall_clock path w) = Ok response)
  ∧ database w' = database w
  ∧ LAST_VALUES w' = LAST_VALUES w
  ∧ stdout w' = stdout w
  ∧ random_calls w' = random_calls w
  ∧ http_get wall_clock "/health" w
    = (Ok (mkResponse 200 (JSON (Dict [("status", Str "ok")]))), w)
  ∧ (∃ response,
       http_get wall_clock "/api/metrics" w = (Ok response, tick_time (tick_time w))
       ∧ (status_code response = 200 ∨ status_code response = 500)).
Proof.
  cbv zeta.
  assert (http_get wall_clock "/health" w
          = (Ok (mkResponse 200 (JSON (Dict [("status", Str "ok")]))), w)) as Hhealth
    by reflexivity.
  assert (∃ response,
            http_get wall_clock "/api/metrics" w = (Ok response, tick_time (tick_time w))
            ∧ (status_code response = 200 ∨ status_code response = 500)) as Hmetrics.
  { rewrite http_get_api_metrics_run. eexists. split; [done|].
    destruct (forallb json_compliant _); auto. }
  assert ((∃ response, fst (http_get wall_clock path w) = Ok response)
          ∧ database (snd (http_get wall_clock path w)) = database w
          ∧ LAST_VALUES (snd (http_get wall_clock path w)) = LAST_VALUES w
          ∧ stdout (snd (http_get wall_clock path w)) = stdout w
          ∧ random_calls (snd (http_get wall_clock path w)) = random_calls w)
    as (? & ? & ? & ? & ?); [|done].
  unfold http_get.
  destruct (List.find _ (app wall_clock)) as [[route endpoint]|] eqn:Hfind.
  - apply List.find_some in Hfind as [Hin _]. unfold app in Hin.
    repeat (destruct Hin as [[= <- <-]|Hin]); [..|done];
      try (split; [by eexists|done]).
    + rewrite get_metrics_response. split; [by eexists|done].
  - destruct (_ && _); (split; [by eexists|done]).
Qed.

End Api.

(** ** The stored readings and the walk state *)

Lemma SENSORS_NoDup : NoDup SENSORS.
Proof. by apply (bool_decide_unpack _). Qed.

Section StoredWalkState.

Variable wall_clock : nat → Z.
Variable random_source : nat → nat.

Lemma generate_random_walk_value_effect sensor_id metric_type w r w' :
  generate_random_walk_value random_source sensor_id metric_type w = (r, w') →
  (∀ s, s ≠ sensor_id → LAST_VALUES w' !! s = LAST_VALUES w !! s)
  ∧ ∀ v, r = Ok v →
      ∃ d, LAST_VALUES w !! sensor_id = Some d
        ∧ LAST_VALUES w' !! sensor_id = Some (<[metric_type := v]> d).
Proof.
  intros H.
  destruct (LAST_VALUES w !! sensor_id) as [d0|] eqn:Hd0.
  2: { unfold generate_random_walk_value, bind, get_LAST_VALUES, getitem in H.
       rewrite Hd0 in H. by injection H as <- <-. }
  destruct (d0 !! metric_type) as [v0|] eqn:Hv0.
  2: { unfold generate_random_walk_value, bind, get_LAST_VALUES, getitem in H.
       rewrite Hd0 in H. unfold ret at 1 in H. rewrite Hv0 in H.
       by injection H as <- <-. }
  destruct (generate_random_walk_value_step random_source w _ _ _ _ Hd0 Hv0)
    as (c & _ & Hgen).
  rewrite Hgen in H. injection H as <- <-. simpl. split.
  - intros s Hs. by rewrite lookup_insert_ne.
  - intros v [= <-]. exists d0. split; [done|]. apply lookup_insert_eq.
Qed.

Lemma insert_each_sensor_other sensors : ∀ ts conn w r w' s,
  insert_each_sensor random_source sensors ts conn w = (r, w') →
  s ∉ sensors →
  LAST_VALUES w' !! s = LAST_VALUES w !! s.
Proof.
  induction sensors as [|s0 rest IH]; intros ts conn w r w' s.
  { by intros [= <- <-]. }
  intros H [Hne Hrest]%not_elem_of_cons. revert H. rewrite insert_each_sensor_cons.
  destruct (generate_random_walk_value random_source s0 "temp" w) as [[t|e] w1] eqn:Ht;
    apply generate_random_walk_value_effect in Ht as [Ht _];
    [|intros [= <- <-]; by apply Ht].
  destruct (generate_random_walk_value random_source s0 "humidity" w1) as [[h|e] w2] eqn:Hh;
    apply generate_random_walk_value_effect in Hh as [Hh _];
    [|intros [= <- <-]; rewrite Hh by done; by apply Ht].
  destruct (key_taken ts s0 (metrics conn)).
  { intros [= <- <-]. rewrite Hh by done. by apply Ht. }
  intros H. rewrite (IH _ _ _ _ _ _ H Hrest), Hh by done. by apply Ht.
Qed.

(** The rows of a loop that went through hold, sensor by sensor, the walk
    values the loop has left in [LAST_VALUES]. *)
Lemma insert_each_sensor_rows_match sensors : ∀ ts conn w conn' w',
  NoDup sensors →
  insert_each_sensor random_source sensors ts conn w = (Ok conn', w') →
  ∃ rows, metrics conn' = metrics conn ++ rows
    ∧ Forall (λ r, ∃ d, LAST_VALUES w' !! sensor_id r = Some d
                        ∧ d !! "temp" = Some (temperature r)
                        ∧ d !! "humidity" = Some (humidity r)) rows.
Proof.
  induction sensors as [|s rest IH]; intros ts conn w conn' w' Hnd; simpl.
  { intros [= <- <-]. exists []. by rewrite app_nil_r. }
  apply NoDup_cons in Hnd as [Hnotin Hnd]. unfold bind at 1.
  destruct (generate_random_walk_value random_source s "temp" w) as [[t|e] w1] eqn:Ht;
    [|done].
  unfold bind at 1.
  destruct (generate_random_walk_value random_source s "humidity" w1) as [[h|e] w2] eqn:Hh;
    [|done].
  unfold bind at 1.
  destruct (execute_insert conn ts s t h w2) as [[conn1|e] w3] eqn:Hins; [|done].
  apply execute_insert_ok in Hins as (-> & _ & ->). intros Hrest.
  destruct (IH _ _ _ _ _ Hnd Hrest) as (rows & Hm & Hrows). simpl in Hm.
  exists (mkRow (next_rowid conn) ts s t h :: rows).
  rewrite Hm, <-app_assoc. split; [done|]. constructor; [|done]. simpl.
  rewrite (insert_each_sensor_other _ _ _ _ _ _ _ Hrest Hnotin).
  apply generate_random_walk_value_effect in Ht as [_ Ht].
  apply generate_random_walk_value_effect in Hh as [_ Hh].
  destruct (Ht t eq_refl) as (d & _ & Hd1).
  destruct (Hh h eq_refl) as (d1 & Hd1' & Hd2).
  assert (d1 = <["temp" := t]> d) as -> by congruence.
  eexists. split; [exact Hd2|]. split.
  - rewrite lookup_insert_ne by done. apply lookup_insert_eq.
  - apply lookup_insert_eq.
Qed.

(** X14. The reading stored for a sensor is the sensor's walk state: after
    a tick whose timestamp was new to the table, every row with that
    timestamp holds the temperature and humidity that [LAST_VALUES] holds for
    its sensor after the tick. *)
Theorem tick_stores_the_walk_state w time_index r :
  let ts := wall_clock (time_calls w) in
  let w' := snd (generate_and_insert_metric wall_clock random_source time_index w) in
  Forall (λ r, timestamp r ≠ ts) (metrics (database w)) →
  r ∈ metrics (database w') →
  timestamp r = ts →
  ∃ of_sensor,
    LAST_VALUES w' !! sensor_id r = Some of_sensor
    ∧ of_sensor !! "temp" = Some (temperature r)
    ∧ of_sensor !! "humidity" = Some (humidity r).
Proof.
  cbv zeta. intros Hnew.
  destruct (generate_and_insert_metric_ok wall_clock random_source time_index w)
    as (outcome & w1 & Hloop & Hdb & _ & _ & Hrun).
  rewrite (generate_and_insert_metric_database _ _ time_index w _ _ Hloop), Hrun.
  cbn [snd].
  rewrite (proj1 (after_prune_frame _ _ _)), (proj1 (after_inserts_frame _ _)).
  intros Hr Hts.
  assert (r ∉ metrics (database w)) as Hold.
  { intros Hin. by apply (proj1 (Forall_forall _ _) Hnew) in Hin. }
  revert Hr. destruct outcome as [conn'|e].
  - unfold execute_delete. cbn [fst metrics]. intros [_ Hr]%list_elem_of_filter.
    destruct (insert_each_sensor_rows_match _ _ _ _ _ _ SENSORS_NoDup Hloop)
      as (rows & Hm & Hrows).
    rewrite Hm in Hr. apply elem_of_app in Hr as [?|Hr]; [done|].
    by apply (proj1 (Forall_forall _ _) Hrows).
  - destruct (keeps_write_lock e); [done|].
    unfold execute_delete. cbn [fst metrics]. by intros [_ Hr]%list_elem_of_filter.
Qed.

End StoredWalkState.

Lemma tick_stores_the_walk_state_witness :
  let w' := snd (generate_and_insert_metric (λ _, 1000) (λ _, 4%nat) 0 initial_world) in
  ∃ r of_sensor,
    head (metrics (database w')) = Some r
    ∧ LAST_VALUES w' !! sensor_id r = Some of_sensor
    ∧ of_sensor !! "temp" = Some (temperature r)
    ∧ of_sensor !! "humidity" = Some (humidity r).
Proof.
  intros w'.
  assert (∃ r, head (metrics (database w')) = Some r) as [r Hr]
    by (vm_compute; eauto).
  destruct (tick_stores_the_walk_state (λ _, 1000) (λ _, 4%nat) initial_world 0 r)
    as (d & Hd & Ht & Hh).
  - apply Forall_nil_2.
  - by apply head_Some_elem_of.
  - vm_compute in Hr. injection Hr as <-. reflexivity.
  - exists r, d. by repeat split.
Defined.

(** ** init_db.py: the generator and the seed *)

Lemma key_taken_app_rows ts sid rows1 rows2 :
  key_taken ts sid (rows1 ++ rows2) = key_taken ts sid rows1 || key_taken ts sid rows2.
Proof. unfold key_taken. apply existsb_app. Qed.

Section Seed.

Variable wall_clock : nat → Z.
Variable random_source : nat → nat.
Variable strftime : Z → string.

Lemma init_db_generate_step sensor_id metric_type current_value w :
  ∃ change, CHANGES !! (random_source (random_calls w) `mod` 5)%nat = Some change
    ∧ InitDb.generate_random_walk_value random_source sensor_id metric_type current_value w
      = (Ok (clamp metric_type (fadd current_value change)), tick_random w).
Proof.
  destruct (random_choice_CHANGES random_source w) as (c & Hc & _ & Hrun).
  exists c. split; [done|].
  unfold InitDb.generate_random_walk_value, bind. rewrite Hrun.
  by rewrite clamp_branches.
Qed.

(** X15. The generator of init_db.py returns the value the generator of
    continuous_data.py returns for the same last value and the same draw, in
    the range of the metric, but keeps no state: it leaves [LAST_VALUES] and
    everything else but the random source as it was, and the caller stores
    the value. *)
Theorem init_db_generator_is_stateless sensor_id metric_type current_value w :
  ∃ new_value,
    InitDb.generate_random_walk_value random_source sensor_id metric_type current_value w
    = (Ok new_value, tick_random w)
    ∧ in_range metric_type new_value = true
    ∧ ∀ of_sensor,
        LAST_VALUES w !! sensor_id = Some of_sensor →
        of_sensor !! metric_type = Some current_value →
        generate_random_walk_value random_source sensor_id metric_type w
        = (Ok new_value,
           set_LAST_VALUES (<[sensor_id := <[metric_type := new_value]> of_sensor]>
                              (LAST_VALUES w)) (tick_random w)).
Proof.
  destruct (init_db_generate_step sensor_id metric_type current_value w) as (c & Hc & ->).
  eexists. split; [done|]. split; [apply clamp_in_range|].
  intros d Hd Hv.
  destruct (generate_random_walk_value_step random_source w _ _ _ _ Hd Hv) as (c' & Hc' & ->).
  by assert (c' = c) as -> by congruence.
Qed.

(** One round of the loop over the sensors. *)
Lemma insert_data_point_cons s0 rest i ts conn cv w :
  has_walk_state cv s0 →
  ∃ t h cv2,
    in_range "temp" t = true ∧ in_range "humidity" h = true
    ∧ (∀ s, has_walk_state cv s → has_walk_state cv2 s)
    ∧ InitDb.insert_data_point random_source (s0 :: rest) i ts conn cv w
      = if key_taken ts s0 (metrics conn)
        then (Ok InitDb.Return,
              add_stdout (Text ("Error inserting data point " +:+ pretty i +:+ " for "
                                +:+ s0 +:+ ": " +:+ UNIQUE_FAILED))
                (tick_random (tick_random w)))
        else InitDb.insert_data_point random_source rest i ts
               (mkDb (metrics conn ++ [mkRow (next_rowid conn) ts s0 t h]) (next_rowid conn))
               cv2 (tick_random (tick_random w)).
Proof.
  intros (d & Hd & [t0 Ht0] & [h0 Hh0]).
  destruct (init_db_generate_step s0 "temp" t0 w) as (c1 & _ & Hgen1).
  destruct (init_db_generate_step s0 "humidity" h0 (tick_random w)) as (c2 & _ & Hgen2).
  set (t := clamp "temp" (fadd t0 c1)) in *.
  set (h := clamp "humidity" (fadd h0 c2)) in *.
  exists t, h, (<[s0 := <["humidity" := h]> (<["temp" := t]> d)]>
                  (<[s0 := <["temp" := t]> d]> cv)).
  split; [apply clamp_in_range|]. split; [apply clamp_in_range|]. split.
  { intros s (ds & Hds & Hts & Hhs).
    destruct (decide (s0 = s)) as [->|Hne].
    - eexists. rewrite lookup_insert_eq. split; [done|].
      split; apply lookup_insert_is_Some'; [right|by left].
      apply lookup_insert_is_Some'. by left.
    - exists ds. by rewrite !lookup_insert_ne. }
  simpl. unfold bind at 1, getitem at 1. rewrite Hd. unfold ret at 1.
  unfold bind at 1, getitem at 1. rewrite Ht0. unfold ret at 1.
  unfold bind at 1. rewrite Hgen1.
  unfold bind at 1, getitem at 1. rewrite Hd. unfold ret at 1.
  unfold bind at 1, getitem at 1. rewrite Hh0. unfold ret at 1.
  unfold bind at 1. rewrite Hgen2.
  unfold bind at 1, getitem at 1. rewrite Hd. unfold ret at 1.
  unfold bind at 1, getitem at 1. rewrite lookup_insert_eq. unfold ret at 1.
  unfold bind at 1, try_except.
  rewrite execute_insert_numbers by (eapply in_range_not_nan; apply clamp_in_range).
  by destruct (key_taken ts s0 (metrics conn)).
Qed.

(** The loop over the sensors for one data point: it adds one row per sensor
    when none of the keys is taken, and otherwise prints the error of a
    taken one and returns. *)
Lemma insert_data_point_run sensors : ∀ i ts conn cv w,
  NoDup sensors →
  (∀ s, s ∈ sensors → has_walk_state cv s) →
  ∃ w',
    LAST_VALUES w' = LAST_VALUES w ∧ database w' = database w
    ∧ time_calls w' = time_calls w
    ∧ ((Forall (λ s, key_taken ts s (metrics conn) = false) sensors
        ∧ ∃ conn' cv' rows,
            InitDb.insert_data_point random_source sensors i ts conn cv w
            = (Ok (InitDb.Next (conn', cv')), w')
            ∧ metrics conn' = metrics conn ++ rows
            ∧ key_of <$> rows = (λ s, (ts, s)) <$> sensors
            ∧ rows_in_range rows
            ∧ stdout w' = stdout w
            ∧ ∀ s, has_walk_state cv s → has_walk_state cv' s)
       ∨ (Exists (λ s, key_taken ts s (metrics conn) = true) sensors
          ∧ InitDb.insert_data_point random_source sensors i ts conn cv w
            = (Ok InitDb.Return, w')
          ∧ ∃ msg, stdout w' = stdout w ++ [Text msg])).
Proof.
  induction sensors as [|s0 rest IH]; intros i ts conn cv w Hnd Hstate.
  { exists w. do 3 (split; [done|]). left. split; [done|].
    exists conn, cv, []. simpl. rewrite app_nil_r. do 3 (split; [done|]).
    split; [apply Forall_nil_2|done]. }
  apply NoDup_cons in Hnd as [Hnotin Hnd].
  destruct (insert_data_point_cons s0 rest i ts conn cv w) as (t & h & cv2 & Ht & Hh & Hkeep & ->);
    [by apply Hstate; left|].
  set (w2 := tick_random (tick_random w)) in *.
  set (row := mkRow (next_rowid conn) ts s0 t h).
  set (conn1 := mkDb (metrics conn ++ [row]) (next_rowid conn)).
  destruct (key_taken ts s0 (metrics conn)) eqn:Htaken.
  - exists (add_stdout (Text ("Error inserting data point " +:+ pretty i +:+ " for "
                              +:+ s0 +:+ ": " +:+ UNIQUE_FAILED)) w2).
    do 3 (split; [reflexivity|]). right. split; [by left|].
    split; [reflexivity|]. simpl. eauto.
  - destruct (IH i ts conn1 cv2 w2 Hnd) as (w' & Hlv & Hdb & Htc & Hcases).
    { intros s Hs. apply Hkeep, Hstate. by right. }
    assert (∀ s, s ∈ rest →
              key_taken ts s (metrics conn1) = key_taken ts s (metrics conn)) as Hsame.
    { intros s Hs. subst conn1. simpl. rewrite key_taken_app. simpl.
      destruct (String.eqb_spec s0 s) as [->|_]; [done|].
      by rewrite andb_false_r, orb_false_r. }
    exists w'. do 3 (split; [done|]).
    destruct Hcases as [[Hfree (conn' & cv' & rows & Hrun & Hm & Hkeys & Hrange & Hout & Hcv)]
                       |[Hex (Hrun & Hmsg)]].
    + left. split.
      { constructor; [done|]. apply Forall_forall. intros s Hs.
        rewrite <-Hsame by done. by apply (proj1 (Forall_forall _ _) Hfree). }
      exists conn', cv', (row :: rows). split; [exact Hrun|].
      split; [by rewrite Hm; subst conn1; simpl; rewrite <-app_assoc|].
      split; [by rewrite !fmap_cons, Hkeys|]. split; [|split; [done|auto]].
      constructor; [|done]. simpl.
      destruct (in_range_bounds_temp t) as [? ?]; [done|].
      destruct (in_range_bounds_humidity h) as [? ?]; [done|]. done.
    + right. split; [|done]. right.
      apply Exists_exists in Hex as (s & Hs & Hk). apply Exists_exists. exists s.
      split; [done|]. by rewrite <-Hsame.
Qed.

Lemma keys_of_points_cons start_time i points :
  keys_of_points start_time (i :: points)
  = ((λ s, (start_time + i, s)) <$> SENSORS) ++ keys_of_points start_time points.
Proof. reflexivity. Qed.

Lemma length_keys_of_points start_time points :
  length (keys_of_points start_time points) = (3 * length points)%nat.
Proof.
  induction points as [|i points IH]; [done|].
  rewrite keys_of_points_cons, length_app, IH. simpl. lia.
Qed.

Lemma insert_data_points_cons i rest start_time conn cv w :
  InitDb.insert_data_points random_source (i :: rest) start_time conn cv w
  = match InitDb.insert_data_point random_source SENSORS i (start_time + i) conn cv w with
    | (Ok (InitDb.Next (conn', cv')), w') =>
        InitDb.insert_data_points random_source rest start_time conn' cv' w'
    | (Ok InitDb.Return, w') => (Ok InitDb.Return, w')
    | (Raise e, w') => (Raise e, w')
    end.
Proof.
  cbn [InitDb.insert_data_points]. unfold bind.
  by destruct (InitDb.insert_data_point random_source SENSORS i (start_time + i) conn cv w)
    as [[[[? ?]|]|?] ?].
Qed.

(** The loop over the data points: it adds the rows of every point when
    none of their keys is taken, and otherwise returns at the first taken
    one. *)
Lemma insert_data_points_run points : ∀ start_time conn cv w,
  NoDup points →
  (∀ s, s ∈ SENSORS → has_walk_state cv s) →
  ∃ w',
    LAST_VALUES w' = LAST_VALUES w ∧ database w' = database w
    ∧ time_calls w' = time_calls w
    ∧ ((Forall (λ i, Forall (λ s, key_taken (start_time + i) s (metrics conn) = false)
                       SENSORS) points
        ∧ ∃ conn' cv' rows,
            InitDb.insert_data_points random_source points start_time conn cv w
            = (Ok (InitDb.Next (conn', cv')), w')
            ∧ metrics conn' = metrics conn ++ rows
            ∧ key_of <$> rows = keys_of_points start_time points
            ∧ rows_in_range rows
            ∧ stdout w' = stdout w)
       ∨ (Exists (λ i, Exists (λ s, key_taken (start_time + i) s (metrics conn) = true)
                         SENSORS) points
          ∧ InitDb.insert_data_points random_source points start_time conn cv w
            = (Ok InitDb.Return, w')
          ∧ ∃ msg, stdout w' = stdout w ++ [Text msg])).
Proof.
  induction points as [|i0 rest IH]; intros start_time conn cv w Hnd Hstate.
  { exists w. do 3 (split; [done|]). left. split; [done|].
    exists conn, cv, []. simpl. rewrite app_nil_r. do 3 (split; [done|]).
    split; [apply Forall_nil_2|done]. }
  apply NoDup_cons in Hnd as [Hnotin Hnd].
  destruct (insert_data_point_run SENSORS i0 (start_time + i0) conn cv w SENSORS_NoDup Hstate)
    as (w1 & Hlv1 & Hdb1 & Htc1 & Hpoint).
  rewrite insert_data_points_cons.
  destruct Hpoint as [[Hfree (conn1 & cv1 & rows1 & -> & Hm1 & Hkeys1 & Hrange1 & Hout1 & Hcv1)]
                     |[Hex (-> & Hmsg)]].
  2: { exists w1. do 3 (split; [done|]). right. split; [by left|]. by split. }
  destruct (IH start_time conn1 cv1 w1 Hnd) as (w' & Hlv & Hdb & Htc & Hcases); [auto|].
  assert (Forall (λ r, timestamp r = start_time + i0) rows1) as Hts1.
  { apply Forall_forall. intros r Hr.
    apply (list_elem_of_fmap_2 key_of) in Hr. rewrite Hkeys1 in Hr.
    by apply list_elem_of_fmap in Hr as (s & [= -> _] & _). }
  assert (∀ i s, i ∈ rest →
            key_taken (start_time + i) s (metrics conn1)
            = key_taken (start_time + i) s (metrics conn)) as Hsame.
  { intros i s Hi. rewrite Hm1, key_taken_app_rows.
    rewrite (key_taken_false _ _ rows1), orb_false_r; [done|].
    eapply Forall_impl; [exact Hts1|]. intros r -> Heq.
    assert (i = i0) as -> by lia. done. }
  exists w'. split; [congruence|]. split; [congruence|]. split; [congruence|].
  destruct Hcases as [[Hfree' (conn' & cv' & rows & Hrun & Hm & Hkeys & Hrange & Hout)]
                     |[Hex (Hrun & Hmsg)]].
  - left. split.
    { constructor; [done|]. apply Forall_forall. intros i Hi.
      apply Forall_forall. intros s Hs. rewrite <-Hsame by done.
      by apply (proj1 (Forall_forall _ _) (proj1 (Forall_forall _ _) Hfree' i Hi)). }
    exists conn', cv', (rows1 ++ rows). split; [exact Hrun|].
    split; [by rewrite Hm, Hm1, app_assoc|].
    split; [by rewrite fmap_app, Hkeys1, Hkeys, keys_of_points_cons|].
    split; [by apply Forall_app|congruence].
  - right. split; [|split; [done|]].
    + right. apply Exists_exists in Hex as (i & Hi & Hs). apply Exists_exists.
      exists i. split; [done|]. apply Exists_exists in Hs as (s & Hs & Hk).
      apply Exists_exists. exists s. split; [done|]. by rewrite <-Hsame.
    + destruct Hmsg as [msg Hmsg]. exists msg. by rewrite Hmsg, Hout1.
Qed.

Lemma copy_initial_values_run w :
  ∃ cv, InitDb.copy_initial_values SENSORS ∅ w = (Ok cv, w)
    ∧ ∀ s, s ∈ SENSORS → has_walk_state cv s.
Proof.
  eexists. split; [reflexivity|]. intros s Hs. unfold SENSORS in Hs.
  repeat (apply elem_of_cons in Hs as [->|Hs]); [..|by apply elem_of_nil in Hs];
    (eexists; split; [reflexivity|split; eexists; reflexivity]).
Qed.

(** The seed as a whole. *)
Lemma populate_database_run w :
  let start_time := wall_clock (time_calls w) - InitDb.HOURS * 3600 in
  let points := seqZ 0 InitDb.DATA_POINTS in
  let banner :=
    Text "Initializing database with 43200 data points (4 hours × 3 sensors)..." in
  ∃ w',
    InitDb.populate_database wall_clock random_source strftime w = (Ok tt, w')
    ∧ LAST_VALUES w' = LAST_VALUES w
    ∧ time_calls w' = S (time_calls w)
    ∧ ((Forall (λ i, Forall (λ s, key_taken (start_time + i) s (metrics (database w)) = false)
                       SENSORS) points
        ∧ ∃ rows,
            metrics (database w') = metrics (database w) ++ rows
            ∧ key_of <$> rows = keys_of_points start_time points
            ∧ rows_in_range rows
            ∧ stdout w'
              = stdout w
                ++ [banner;
                    Text "✓ Database populated!";
                    Text ("  Data range: " +:+ strftime start_time +:+ " → now");
                    Text "  Sensors: THS No. 1, THS No. 2, THS No. 3";
                    Text "  Temperature: 16.0°C - 26.0°C (random walk)";
                    Text "  Humidity: 40.0% - 70.0% (random walk)";
                    Text "  Total records: 43200"])
       ∨ (Exists (λ i, Exists (λ s, key_taken (start_time + i) s (metrics (database w)) = true)
                         SENSORS) points
          ∧ database w' = database w
          ∧ ∃ msg, stdout w' = stdout w ++ [banner; Text msg])).
Proof.
  cbv zeta. unfold InitDb.populate_database.
  generalize (NoDup_seqZ 0 InitDb.DATA_POINTS). generalize (seqZ 0 InitDb.DATA_POINTS).
  intros points Hnd.
  set (banner := Text (_ +:+ _)).
  assert (banner
          = Text "Initializing database with 43200 data points (4 hours × 3 sensors)...")
    as Hbanner by reflexivity.
  unfold bind at 1, print at 1. unfold bind at 1, init_db, bind, get_db, commit, close, ret.
  cbn [database add_stdout set_database LAST_VALUES stdout random_calls time_calls].
  unfold int_time_time. cbn [time_calls tick_time LAST_VALUES database stdout random_calls].
  change (time_calls (set_database (database w) (add_stdout banner w)))
    with (time_calls w).
  set (w0 := tick_time (set_database (database w) (add_stdout banner w))).
  destruct (copy_initial_values_run w0) as (cv & -> & Hcv).
  destruct (insert_data_points_run points (wall_clock (time_calls w) - InitDb.HOURS * 3600)
              (database w) cv w0 Hnd Hcv) as (w1 & Hlv & Hdb & Htc & Hcases).
  destruct Hcases as [[Hfree (conn' & cv' & rows & -> & Hm & Hkeys & Hrange & Hout)]
                     |[Hex (-> & msg & Hmsg)]].
  - eexists. split; [reflexivity|]. simpl.
    split; [done|]. split; [by rewrite Htc|]. left. split; [done|].
    exists rows. do 3 (split; [done|]). rewrite Hout. subst w0. simpl.
    rewrite Hbanner, <-!app_assoc. reflexivity.
  - exists w1. split; [reflexivity|]. split; [done|]. split; [by rewrite Htc|].
    right. split; [done|]. split; [done|]. exists msg.
    rewrite Hmsg. subst w0. simpl. by rewrite <-?app_assoc, Hbanner.
Qed.

Lemma key_taken_true ts sid rows :
  key_taken ts sid rows = true ↔ ∃ r, r ∈ rows ∧ timestamp r = ts ∧ sensor_id r = sid.
Proof.
  unfold key_taken. rewrite existsb_exists. split.
  - intros (r & Hr & [Ht Hs]%andb_prop). exists r. rewrite list_elem_of_In.
    split; [done|]. split; [by apply Z.eqb_eq|by apply String.eqb_eq].
  - intros (r & Hr & <- & <-). exists r. rewrite <-list_elem_of_In.
    split; [done|]. by rewrite Z.eqb_refl, String.eqb_refl.
Qed.

(** Some key of the span is taken exactly when some row lies in the span. *)
Lemma seed_span_taken start_time rows :
  Exists (λ i, Exists (λ s, key_taken (start_time + i) s rows = true) SENSORS)
    (seqZ 0 InitDb.DATA_POINTS)
  ↔ ∃ r, r ∈ rows ∧ in_seed_span start_time r.
Proof.
  unfold in_seed_span. rewrite Exists_exists. split.
  - intros (i & Hi%elem_of_seqZ & (s & Hs & (r & Hr & Ht & Hsid)%key_taken_true)%Exists_exists).
    exists r. split; [done|]. rewrite Hsid. split; [lia|done].
  - intros (r & Hr & Hspan & Hs). exists (timestamp r - start_time).
    split; [apply elem_of_seqZ; lia|]. apply Exists_exists. exists (sensor_id r).
    split; [done|]. apply key_taken_true. exists r. split; [done|]. split; [lia|done].
Qed.

Lemma seed_span_free start_time rows :
  Forall (λ i, Forall (λ s, key_taken (start_time + i) s rows = false) SENSORS)
    (seqZ 0 InitDb.DATA_POINTS)
  ↔ ∀ r, r ∈ rows → ¬ in_seed_span start_time r.
Proof.
  split.
  - intros Hfree r Hr Hspan.
    assert (Exists (λ i, Exists (λ s, key_taken (start_time + i) s rows = true) SENSORS)
              (seqZ 0 InitDb.DATA_POINTS)) as Hex by (apply seed_span_taken; eauto).
    apply Exists_exists in Hex as (i & Hi & (s & Hs & Hk)%Exists_exists).
    pose proof (proj1 (Forall_forall _ _) (proj1 (Forall_forall _ _) Hfree i Hi) s Hs).
    congruence.
  - intros Hfree. apply Forall_forall. intros i Hi. apply Forall_forall. intros s Hs.
    destruct (key_taken (start_time + i) s rows) eqn:Hk; [|done].
    destruct (proj1 (seed_span_taken start_time rows)) as (r & Hr & Hspan).
    { apply Exists_exists. exists i. split; [done|]. apply Exists_exists. eauto. }
    by destruct (Hfree r Hr).
Qed.

Lemma elem_of_keys_of_points start_time points ts sid :
  (ts, sid) ∈ keys_of_points start_time points
  ↔ ∃ i, i ∈ points ∧ ts = start_time + i ∧ sid ∈ SENSORS.
Proof.
  unfold keys_of_points. rewrite list_elem_of_bind. split.
  - intros (i & (s & [= -> ->] & Hs)%list_elem_of_fmap & Hi). eauto.
  - intros (i & Hi & -> & Hs). exists i. split; [|done].
    apply list_elem_of_fmap. eauto.
Qed.

Lemma NoDup_keys_of_points start_time points :
  NoDup points → NoDup (keys_of_points start_time points).
Proof.
  induction 1 as [|i points Hi Hnd IH]; [apply NoDup_nil_2|].
  rewrite keys_of_points_cons. apply NoDup_app. split; [|split; [|done]].
  - apply NoDup_fmap_2; [|apply SENSORS_NoDup]. by intros s1 s2 [= ->].
  - intros [ts sid] (s & [= -> ->] & _)%list_elem_of_fmap
      (j & Hj & Heq & _)%elem_of_keys_of_points.
    assert (j = i) as -> by lia. done.
Qed.

(** X16. The seed stores all of its rows or none: if some row of the
    table lies in the span it is about to write, it leaves the table as it
    found it; if none does, it adds exactly the 43200 rows of its span, in
    order, with clamped values. The walk state of the sampler is not
    touched. *)
Theorem populate_database_all_or_nothing w :
  let start_time := wall_clock (time_calls w) - 14400 in
  let w' := snd (InitDb.populate_database wall_clock random_source strftime w) in
  LAST_VALUES w' = LAST_VALUES w
  ∧ (((∃ r, r ∈ metrics (database w) ∧ in_seed_span start_time r)
      ∧ database w' = database w)
     ∨ ((∀ r, r ∈ metrics (database w) → ¬ in_seed_span start_time r)
        ∧ ∃ rows,
            metrics (database w') = metrics (database w) ++ rows
            ∧ key_of <$> rows = keys_of_points start_time (seqZ 0 InitDb.DATA_POINTS)
            ∧ Z.of_nat (length rows) = 43200
            ∧ rows_in_range rows)).
Proof.
  cbv zeta. destruct (populate_database_run w) as (w' & Hrun & Hlv & _ & Hcases).
  rewrite Hrun. cbn [snd]. split; [done|].
  change (InitDb.HOURS * 3600) with 14400 in Hcases.
  destruct Hcases as [[Hfree (rows & Hm & Hkeys & Hrange & _)]|[Hex [Hdb _]]].
  - right. split; [by apply seed_span_free|]. exists rows. do 2 (split; [done|]).
    split; [|done].
    rewrite <-(length_fmap key_of), Hkeys, length_keys_of_points, length_seqZ.
    change InitDb.DATA_POINTS with 14400. lia.
  - left. split; [by apply seed_span_taken|done].
Qed.

(** The seed on a table with no row in its span. *)
Lemma populate_database_fresh w :
  let now := wall_clock (time_calls w) in
  let w' := snd (InitDb.populate_database wall_clock random_source strftime w) in
  (∀ r, r ∈ metrics (database w) → ¬ in_seed_span (now - 14400) r) →
  ∃ rows,
    metrics (database w') = metrics (database w) ++ rows
    ∧ NoDup (key_of <$> rows)
    ∧ (∀ ts sid, (ts, sid) ∈ key_of <$> rows ↔ now - 14400 ≤ ts < now ∧ sid ∈ SENSORS)
    ∧ (unique_keys (metrics (database w)) → unique_keys (metrics (database w')))
    ∧ last (stdout w') = Some (Text "  Total records: 43200").
Proof.
  cbv zeta. intros Hfresh.
  destruct (populate_database_run w) as (w' & Hrun & Hlv & _ & Hcases).
  rewrite Hrun. cbn [snd]. change (InitDb.HOURS * 3600) with 14400 in Hcases.
  destruct Hcases as [[Hfree (rows & Hm & Hkeys & Hrange & Hout)]|[Hex _]].
  2: { apply seed_span_taken in Hex as (r & Hr & Hspan). by destruct (Hfresh r Hr). }
  exists rows. split; [done|].
  assert (∀ ts sid, (ts, sid) ∈ key_of <$> rows
            ↔ wall_clock (time_calls w) - 14400 ≤ ts < wall_clock (time_calls w)
              ∧ sid ∈ SENSORS) as Hin.
  { intros ts sid. rewrite Hkeys, elem_of_keys_of_points. split.
    - intros (i & Hi%elem_of_seqZ & -> & Hs). change InitDb.DATA_POINTS with 14400 in Hi.
      split; [lia|done].
    - intros [Hts Hs]. exists (ts - (wall_clock (time_calls w) - 14400)).
      split; [apply elem_of_seqZ; change InitDb.DATA_POINTS with 14400; lia|].
      split; [lia|done]. }
  assert (NoDup (key_of <$> rows)) as Hnd.
  { rewrite Hkeys. apply NoDup_keys_of_points, NoDup_seqZ. }
  do 2 (split; [done|]). split.
  - unfold unique_keys. rewrite Hm, fmap_app. intros Hold. apply NoDup_app.
    split; [done|]. split; [|done].
    intros [ts sid] (r & [= -> ->] & Hr)%list_elem_of_fmap Hnew.
    apply (Hfresh r Hr). apply Hin in Hnew as [? ?]. split; [|done].
    change InitDb.DATA_POINTS with 14400. lia.
  - rewrite Hout. by rewrite last_app_cons.
Qed.

(** X17. On a table with no row in its span the seed writes, for every
    second of the four hours before the clock value it read and for every
    sensor, exactly one row, and no other row; a table that satisfied the
    UNIQUE constraint still does, and the last line printed is the total of
    43200 records. *)
Theorem populate_database_fills_four_hours w :
  let now := wall_clock (time_calls w) in
  let w' := snd (InitDb.populate_database wall_clock random_source strftime w) in
  (∀ r, r ∈ metrics (database w) → ¬ in_seed_span (now - 14400) r) →
  ∃ rows,
    metrics (database w') = metrics (database w) ++ rows
    ∧ NoDup (key_of <$> rows)
    ∧ (∀ ts sid, (ts, sid) ∈ key_of <$> rows ↔ now - 14400 ≤ ts < now ∧ sid ∈ SENSORS)
    ∧ (unique_keys (metrics (database w)) → unique_keys (metrics (database w')))
    ∧ last (stdout w') = Some (Text "  Total records: 43200").
Proof. apply populate_database_fresh. Qed.

(** A seed whose very first key is taken prints the error for data point 0
    and the first sensor, and changes nothing else. *)
Lemma populate_database_first_taken w :
  key_taken (wall_clock (time_calls w) - 14400) "THS No. 1" (metrics (database w)) = true →
  InitDb.populate_database wall_clock random_source strftime w
  = (Ok tt,
     mkWorld (LAST_VALUES w) (database w)
       (stdout w
        ++ [Text "Initializing database with 43200 data points (4 hours × 3 sensors)...";
            Text ("Error inserting data point 0 for THS No. 1: " +:+ UNIQUE_FAILED)])
       (S (S (random_calls w))) (S (time_calls w))).
Proof.
  intros Htaken. unfold InitDb.populate_database.
  rewrite (seqZ_cons 0 InitDb.DATA_POINTS) by done.
  generalize (seqZ (Z.succ 0) (Z.pred InitDb.DATA_POINTS)). intros points.
  set (banner := Text (_ +:+ _)).
  assert (banner
          = Text "Initializing database with 43200 data points (4 hours × 3 sensors)...")
    as Hbanner by reflexivity.
  unfold bind at 1, print at 1. unfold bind at 1, init_db, bind, get_db, commit, close, ret.
  cbn [database add_stdout set_database LAST_VALUES stdout random_calls time_calls].
  unfold int_time_time. cbn [time_calls tick_time LAST_VALUES database stdout random_calls].
  change (time_calls (set_database (database w) (add_stdout banner w)))
    with (time_calls w).
  set (w0 := tick_time (set_database (database w) (add_stdout banner w))).
  destruct (copy_initial_values_run w0) as (cv & -> & Hcv).
  rewrite insert_data_points_cons. unfold SENSORS at 1.
  destruct (insert_data_point_cons "THS No. 1" ["THS No. 2"; "THS No. 3"] 0
              (wall_clock (time_calls w) - InitDb.HOURS * 3600 + 0) (database w) cv w0)
    as (t & h & cv2 & _ & _ & _ & ->); [by apply Hcv, (bool_decide_unpack _)|].
  change (InitDb.HOURS * 3600) with 14400. rewrite Z.add_0_r, Htaken.
  subst w0. unfold add_stdout, tick_random, tick_time, set_database.
  cbn [LAST_VALUES database stdout random_calls time_calls].
  rewrite <-app_assoc, Hbanner. reflexivity.
Qed.

(** X18. Running the seed again does nothing: when a seed has filled the
    four hours before its clock value, a second seed that reads a clock value
    less than four hours later finds its first key taken, leaves the table
    as it is and prints the error for data point 0 of the first sensor in
    place of the summary. *)
Theorem populate_database_again_is_no_op w :
  let now1 := wall_clock (time_calls w) in
  let now2 := wall_clock (S (time_calls w)) in
  let w1 := snd (InitDb.populate_database wall_clock random_source strftime w) in
  let w2 := snd (InitDb.populate_database wall_clock random_source strftime w1) in
  (∀ r, r ∈ metrics (database w) → ¬ in_seed_span (now1 - 14400) r) →
  now1 ≤ now2 < now1 + 14400 →
  fst (InitDb.populate_database wall_clock random_source strftime w1) = Ok tt
  ∧ database w2 = database w1
  ∧ stdout w2
    = stdout w1
      ++ [Text "Initializing database with 43200 data points (4 hours × 3 sensors)...";
          Text ("Error inserting data point 0 for THS No. 1: " +:+ UNIQUE_FAILED)].
Proof.
  cbv zeta. intros Hfresh Hclock.
  destruct (populate_database_fresh w Hfresh) as (rows & Hm & _ & Hin & _).
  destruct (populate_database_run w) as (w1 & Hrun1 & _ & Htc1 & _).
  rewrite Hrun1 in Hm |- *. cbn [snd] in Hm |- *.
  rewrite populate_database_first_taken; [done|].
  rewrite Htc1. apply key_taken_true.
  assert ((wall_clock (S (time_calls w)) - 14400, "THS No. 1") ∈ key_of <$> rows)
    as (r & Hkey & Hr)%list_elem_of_fmap.
  { apply Hin. split; [lia|]. by apply (bool_decide_unpack _). }
  injection Hkey as Hts Hs. exists r. split; [|done].
  rewrite Hm. apply elem_of_app. by right.
Qed.

End Seed.

Lemma populate_database_fills_four_hours_witness :
  last (stdout (snd (InitDb.populate_database (λ _, 20000) (λ _, 4%nat) (λ _, "")
                       initial_world)))
  = Some (Text "  Total records: 43200").
Proof.
  destruct (populate_database_fills_four_hours (λ _, 20000) (λ _, 4%nat) (λ _, "")
              initial_world) as (rows & _ & _ & _ & _ & H).
  - intros r Hr. by apply elem_of_nil in Hr.
  - exact H.
Defined.

Lemma populate_database_again_is_no_op_witness :
  database (snd (InitDb.populate_database (λ _, 20000) (λ _, 4%nat) (λ _, "")
                   (snd (InitDb.populate_database (λ _, 20000) (λ _, 4%nat) (λ _, "")
                           initial_world))))
  = database (snd (InitDb.populate_database (λ _, 20000) (λ _, 4%nat) (λ _, "")
                     initial_world)).
Proof.
  destruct (populate_database_again_is_no_op (λ _, 20000) (λ _, 4%nat) (λ _, "")
              initial_world) as (_ & H & _).
  - intros r Hr. by apply elem_of_nil in Hr.
  - simpl. lia.
  - exact H.
Defined.

(** ** Rejected ticks and runs of ticks *)

Section Runs.

Variable wall_clock : nat → Z.
Variable random_source : nat → nat.

(** X19. The walk state is not rolled back with the transaction: a tick
    whose first insert is rejected, because the row of the first sensor for
    its timestamp exists, stores nothing, yet it has drawn twice and leaves
    the two new walk values of that sensor in [LAST_VALUES]; the other
    sensors keep theirs. *)
Theorem rejected_tick_still_advances_walk w time_index of_sensor temp hum :
  LAST_VALUES w !! "THS No. 1" = Some of_sensor →
  of_sensor !! "temp" = Some temp →
  of_sensor !! "humidity" = Some hum →
  key_taken (wall_clock (time_calls w)) "THS No. 1" (metrics (database w)) = true →
  let w' := snd (generate_and_insert_metric wall_clock random_source time_index w) in
  ∃ change1 change2,
    CHANGES !! (random_source (random_calls w) `mod` 5)%nat = Some change1
    ∧ CHANGES !! (random_source (S (random_calls w)) `mod` 5)%nat = Some change2
    ∧ LAST_VALUES w'
      = <["THS No. 1" := <["humidity" := clamp "humidity" (fadd hum change2)]>
                           (<["temp" := clamp "temp" (fadd temp change1)]> of_sensor)]>
          (LAST_VALUES w)
    ∧ random_calls w' = S (S (random_calls w))
    ∧ ∀ r, r ∈ metrics (database w') → r ∈ metrics (database w).
Proof.
  intros Hd Ht Hh Htaken. cbv zeta.
  destruct (generate_random_walk_value_step random_source (tick_time w)
              "THS No. 1" "temp" of_sensor temp Hd Ht) as (c1 & Hc1 & Hgen1).
  set (t := clamp "temp" (fadd temp c1)) in *.
  set (w1 := mkWorld _ _ _ _ _) in Hgen1.
  destruct (generate_random_walk_value_step random_source w1
              "THS No. 1" "humidity" (<["temp" := t]> of_sensor) hum) as (c2 & Hc2 & Hgen2).
  { apply lookup_insert_eq. }
  { by rewrite lookup_insert_ne. }
  set (h := clamp "humidity" (fadd hum c2)) in *.
  set (w2 := mkWorld _ _ _ _ _) in Hgen2.
  assert (insert_each_sensor random_source SENSORS (wall_clock (time_calls w)) (database w)
            (tick_time w) = (Raise (IntegrityError UNIQUE_FAILED), w2)) as Hloop.
  { unfold SENSORS. rewrite insert_each_sensor_cons, Hgen1, Hgen2. by rewrite Htaken. }
  rewrite (generate_and_insert_metric_run wall_clock random_source time_index w _ _ Hloop).
  rewrite clean_old_data_while_run.
  cbn [snd lock_after keeps_write_lock after_prune after_inserts]. simpl contains. cbn iota.
  exists c1, c2. split; [done|]. split; [done|]. split.
  { subst w2 w1. simpl. by rewrite insert_insert_eq. }
  split; [done|]. by intros r.
Qed.

Lemma tick_keys_length clock first n : length (tick_keys clock first n) = (3 * n)%nat.
Proof.
  revert first. induction n as [|n IH]; intros first; [done|].
  cbn [tick_keys]. rewrite length_app, length_fmap, IH. simpl. lia.
Qed.

(** X20. Ticks at seconds that are new to the table and pairwise different,
    with every prune of the run reaching back to the first of them at most,
    add three rows each: after [n] ticks the keys of the table are the keys
    it had, followed by the three sensors of each tick in turn, so that the
    table has grown by [3 * n] rows. *)
Theorem run_loop_appends_three_rows_per_tick n : ∀ w time_index,
  (∀ s, s ∈ SENSORS → has_walk_state (LAST_VALUES w) s) →
  (∀ k, (k < n)%nat →
     Forall (λ r, timestamp r ≠ wall_clock (time_calls w + 2 * k)%nat
                  ∧ wall_clock (time_calls w + 2 * k + 1)%nat - 3600 ≤ timestamp r)
       (metrics (database w))) →
  (∀ j k, (j < k < n)%nat →
     wall_clock (time_calls w + 2 * j)%nat ≠ wall_clock (time_calls w + 2 * k)%nat) →
  (∀ j k, (j ≤ k < n)%nat →
     wall_clock (time_calls w + 2 * k + 1)%nat - 3600
     ≤ wall_clock (time_calls w + 2 * j)%nat) →
  let rows := metrics (database (snd (run_loop wall_clock random_source n time_index w))) in
  key_of <$> rows
  = (key_of <$> metrics (database w)) ++ tick_keys wall_clock (time_calls w) n
  ∧ length rows = (length (metrics (database w)) + 3 * n)%nat.
Proof.
  assert (∀ w time_index,
    (∀ s, s ∈ SENSORS → has_walk_state (LAST_VALUES w) s) →
    (∀ k, (k < n)%nat →
       Forall (λ r, timestamp r ≠ wall_clock (time_calls w + 2 * k)%nat
                    ∧ wall_clock (time_calls w + 2 * k + 1)%nat - 3600 ≤ timestamp r)
         (metrics (database w))) →
    (∀ j k, (j < k < n)%nat →
       wall_clock (time_calls w + 2 * j)%nat ≠ wall_clock (time_calls w + 2 * k)%nat) →
    (∀ j k, (j ≤ k < n)%nat →
       wall_clock (time_calls w + 2 * k + 1)%nat - 3600
       ≤ wall_clock (time_calls w + 2 * j)%nat) →
    key_of <$> metrics (database (snd (run_loop wall_clock random_source n time_index w)))
    = (key_of <$> metrics (database w)) ++ tick_keys wall_clock (time_calls w) n) as Hkeys.
  { induction n as [|n IH]; intros w time_index Hstate Hrows Hdiff Hkeep.
    { simpl. by rewrite app_nil_r. }
    assert (Forall (λ r, timestamp r ≠ wall_clock (time_calls w)
                         ∧ wall_clock (S (time_calls w)) - 3600 ≤ timestamp r)
              (metrics (database w))) as Hrows0.
    { specialize (Hrows 0%nat ltac:(lia)).
      replace (time_calls w + 2 * 0)%nat with (time_calls w) in Hrows by lia.
      replace (time_calls w + 1)%nat with (S (time_calls w)) in Hrows by lia. done. }
    assert (wall_clock (S (time_calls w)) - 3600 ≤ wall_clock (time_calls w)) as Hkeep0.
    { specialize (Hkeep 0%nat 0%nat ltac:(lia)).
      replace (time_calls w + 2 * 0)%nat with (time_calls w) in Hkeep by lia.
      replace (time_calls w + 1)%nat with (S (time_calls w)) in Hkeep by lia. done. }
    destruct (generate_and_insert_metric_appends wall_clock random_source time_index w
                Hstate Hrows0 Hkeep0) as (w1 & Hrun & Hk1 & Htc1 & Hst1).
    cbn [run_loop]. unfold bind at 1. rewrite Hrun.
    assert (∀ k, (time_calls w1 + 2 * k)%nat = (time_calls w + 2 * S k)%nat) as Hshift
      by (intros k; lia).
    rewrite (IH w1 (time_index + 1)); [|done| | |].
    - rewrite Hk1, <-app_assoc, Htc1. done.
    - intros k Hk. rewrite !Hshift.
      apply Forall_fmap with (f := key_of)
                             (P := λ key, key.1 ≠ wall_clock (time_calls w + 2 * S k)%nat
                                          ∧ wall_clock (time_calls w + 2 * S k + 1)%nat - 3600
                                            ≤ key.1).
      rewrite Hk1. apply Forall_app. split.
      + apply Forall_fmap. exact (Hrows (S k) ltac:(lia)).
      + apply Forall_fmap, Forall_forall. intros s _. simpl. split.
        * specialize (Hdiff 0%nat (S k) ltac:(lia)).
          by replace (time_calls w + 2 * 0)%nat with (time_calls w) in Hdiff by lia.
        * specialize (Hkeep 0%nat (S k) ltac:(lia)).
          by replace (time_calls w + 2 * 0)%nat with (time_calls w) in Hkeep by lia.
    - intros j k Hjk. rewrite !Hshift. apply Hdiff. lia.
    - intros j k Hjk. rewrite !Hshift. apply Hkeep. lia. }
  intros w time_index Hstate Hrows Hdiff Hkeep rows.
  pose proof (Hkeys w time_index Hstate Hrows Hdiff Hkeep) as H. fold rows in H.
  split; [done|].
  rewrite <-(length_fmap key_of rows), H, length_app, length_fmap, tick_keys_length. done.
Qed.

End Runs.

Lemma rejected_tick_still_advances_walk_witness :
  LAST_VALUES (snd (generate_and_insert_metric (λ _, 1000) (λ _, 4%nat) 0
                      (set_database (mkDb [mkRow 1 1000 "THS No. 1" f_21_0 f_55_0] 1)
                         initial_world)))
  !! "THS No. 1"
  = Some (<["humidity" := clamp "humidity" (fadd f_55_0 f_0_1)]>
            (<["temp" := clamp "temp" (fadd f_21_0 f_0_1)]> (sensor_values f_21_0 f_55_0))).
Proof.
  destruct (rejected_tick_still_advances_walk (λ _, 1000) (λ _, 4%nat)
              (set_database (mkDb [mkRow 1 1000 "THS No. 1" f_21_0 f_55_0] 1) initial_world)
              0 (sensor_values f_21_0 f_55_0) f_21_0 f_55_0)
    as (c1 & c2 & Hc1 & Hc2 & Hlv & _); [reflexivity..|].
  rewrite Hlv, lookup_insert_eq. simpl in Hc1, Hc2.
  injection Hc1 as <-. injection Hc2 as <-. reflexivity.
Defined.

Lemma run_loop_appends_three_rows_per_tick_witness :
  length (metrics (database (snd (run_loop (λ n, 1000 + Z.of_nat n) (λ n, n) 5 0
                                    initial_world))))
  = 15%nat.
Proof.
  destruct (run_loop_appends_three_rows_per_tick (λ n, 1000 + Z.of_nat n) (λ n, n) 5
              initial_world 0) as [_ H].
  - apply initial_walk_state.
  - intros k _. apply Forall_nil_2.
  - intros j k Hjk. simpl time_calls. lia.
  - intros j k Hjk. simpl time_calls. lia.
  - exact H.
Defined.
